(** * User view of the web portal and directory group lookup

    A shallow embedding of
    [src/webportal/src/app/user/fabric/userView/index.jsx] (the React
    component [UserView]) and of the directory helper that follows it
    in the same source unit ([initConfig], [getUserGroupList]).

    The classes [Filter], [Ordering] and [Pagination] are imported by
    [index.jsx] from sibling modules; their definitions here follow the
    written specification and say so. *)

From Stdlib Require Import Ascii DecimalString.
From stdpp Require Import base list strings gmap.

(** ** Users *)

(** A user record as the view reads it.  Only [username] is touched by
    [index.jsx] itself; the other attributes are those the filter and the
    ordering inspect. *)
Module User.

Record t := make {
  username : string;
  admin : bool;
  virtualClusters : gset string;
}.

End User.

(** ** Pagination *)

Module Pagination.

(** [new Pagination(itemsPerPage, pageIndex)]: the two constructor
    arguments in the order the view passes them. *)
Record t := make {
  itemsPerPage : nat;
  currentPage : nat;
}.

(** JavaScript's [Array.prototype.slice(start, stop)] for indices that are
    natural numbers: the elements at positions [start <= i < stop]. *)
Definition slice {A} (start stop : nat) (l : list A) : list A :=
  take (stop - start) (drop start l).

(** Modelled from the spec: [Pagination.apply], whose class lives in
    [./Pagination] next to [index.jsx].  It returns the slice
    [currentPage * itemsPerPage, min(length, (currentPage+1) * itemsPerPage)). *)
Definition apply {A} (p : t) (users : list A) : list A :=
  slice (currentPage p * itemsPerPage p)
        (min (length users) ((currentPage p + 1) * itemsPerPage p))
        users.

End Pagination.

(** ** Strings as the filter reads them *)

(** [String.prototype.toLowerCase] on the ASCII letters. *)
Definition lower_ascii (c : ascii) : ascii :=
  let n := nat_of_ascii c in
  if (65 <=? n) && (n <=? 90) then ascii_of_nat (n + 32) else c.

Fixpoint toLowerCase (s : string) : string :=
  match s with
  | EmptyString => EmptyString
  | String c rest => String (lower_ascii c) (toLowerCase rest)
  end.

(** [s.includes(sub)]: [sub] occurs in [s] as a contiguous substring. *)
Fixpoint includes (s sub : string) : bool :=
  String.prefix sub s
  || match s with
     | EmptyString => false
     | String _ rest => includes rest sub
     end.

(** ** Filter *)

Module Filter.

(** Modelled from the spec: the predicate fields of [Filter] (class in
    [./Filter], not part of [index.jsx]); [None] is "unset"/"any". *)
Record t := make {
  username : option string;
  admin : option bool;
  virtualCluster : option string;
}.

(** The filter with every predicate field unset. *)
Definition empty : t := make None None None.

Definition matchesUsername (f : t) (u : User.t) : bool :=
  match username f with
  | None => true
  | Some text => includes (toLowerCase (User.username u)) (toLowerCase text)
  end.

Definition matchesAdmin (f : t) (u : User.t) : bool :=
  match admin f with
  | None => true
  | Some flag => Bool.eqb (User.admin u) flag
  end.

Definition matchesVirtualCluster (f : t) (u : User.t) : bool :=
  match virtualCluster f with
  | None => true
  | Some vc => bool_decide (vc ∈ User.virtualClusters u)
  end.

Definition matches (f : t) (u : User.t) : bool :=
  matchesUsername f u && matchesAdmin f u && matchesVirtualCluster f u.

(** Modelled from the spec: [Filter.apply] returns the subsequence of
    [users], relative order preserved, for which every configured predicate
    field matches. *)
Definition apply (f : t) (users : list User.t) : list User.t :=
  List.filter (matches f) users.

End Filter.

(** ** Ordering *)

Module Ordering.

(** Modelled from the spec: the sort keys of [Ordering] (class in
    [./Ordering], not part of [index.jsx]). *)
Inductive key := ByUsername | ByAdmin | ByVirtualClusterCount.

Record t := make {
  field : option key;
  descending : bool;
}.

(** [new Ordering()]: no ordering configured. *)
Definition default : t := make None false.

Definition compareBy (k : key) (u v : User.t) : comparison :=
  match k with
  | ByUsername => String.compare (User.username u) (User.username v)
  | ByAdmin => Bool.compare (User.admin u) (User.admin v)
  | ByVirtualClusterCount =>
      Nat.compare (size (User.virtualClusters u)) (size (User.virtualClusters v))
  end.

(** [u] may stay in front of [v]. *)
Definition inOrder (k : key) (desc : bool) (u v : User.t) : bool :=
  match (if desc then compareBy k v u else compareBy k u v) with
  | Gt => false
  | _ => true
  end.

Fixpoint insert (k : key) (desc : bool) (u : User.t) (sorted : list User.t)
  : list User.t :=
  match sorted with
  | [] => [u]
  | v :: rest =>
      if inOrder k desc u v then u :: v :: rest
      else v :: insert k desc u rest
  end.

(** A stable sort: an element is inserted in front of the first later
    element it does not exceed, so ties keep their input order. *)
Definition sort (k : key) (desc : bool) (users : list User.t) : list User.t :=
  foldr (insert k desc) [] users.

(** Modelled from the spec: [Ordering.apply] returns the users sorted by
    the configured key, ties in input order; with no key configured it is the
    identity. *)
Definition apply (o : t) (users : list User.t) : list User.t :=
  match field o with
  | None => users
  | Some k => sort k (descending o) users
  end.

End Ordering.


(** ** The view: state hooks of [UserView] *)

Module UserView.

(** The array held by the [filteredUsers] hook, with the identity React
    compares when it checks the dependency list of the paging effect. *)
Record JsArray := mkArray {
  ref : nat;
  items : list User.t;
}.

(** The state hooks the selection and paging logic reads
    ([useState] calls of lines 72-124), as one committed render holds them,
    and whether the effect of lines 110-112 is still to run for that render. *)
Record State := mkState {
  allUsers : option (list User.t);
  filter : Filter.t;
  filteredUsers : option JsArray;
  pagination : Pagination.t;
  selectedUsers : list User.t;
  allSelected : bool;
  ordering : Ordering.t;
  pagingEffectPending : bool;
}.

(** [xs || []] where [xs] is an array or null/undefined. *)
Definition orEmpty {A} (xs : option (list A)) : list A :=
  match xs with
  | Some l => l
  | None => []
  end.

(** [Object.is] on the values the [filteredUsers] hook takes. *)
Definition objectIs (a b : option JsArray) : bool :=
  match a, b with
  | None, None => true
  | Some x, Some y => Nat.eqb (ref x) (ref y)
  | _, _ => false
  end.

Definition setAllUsers (data : option (list User.t)) (st : State) : State :=
  mkState data (filter st) (filteredUsers st) (pagination st)
          (selectedUsers st) (allSelected st) (ordering st)
          (pagingEffectPending st).

Definition setFilter (f : Filter.t) (st : State) : State :=
  mkState (allUsers st) f (filteredUsers st) (pagination st)
          (selectedUsers st) (allSelected st) (ordering st)
          (pagingEffectPending st).

Definition setPagination (p : Pagination.t) (st : State) : State :=
  mkState (allUsers st) (filter st) (filteredUsers st) p
          (selectedUsers st) (allSelected st) (ordering st)
          (pagingEffectPending st).

Definition setSelectedUsers (us : list User.t) (st : State) : State :=
  mkState (allUsers st) (filter st) (filteredUsers st) (pagination st)
          us (allSelected st) (ordering st)
          (pagingEffectPending st).

Definition setAllSelected (b : bool) (st : State) : State :=
  mkState (allUsers st) (filter st) (filteredUsers st) (pagination st)
          (selectedUsers st) b (ordering st)
          (pagingEffectPending st).

Definition setOrdering (o : Ordering.t) (st : State) : State :=
  mkState (allUsers st) (filter st) (filteredUsers st) (pagination st)
          (selectedUsers st) (allSelected st) o
          (pagingEffectPending st).

(** The body of the effect of lines 110-112:
    [setPagination(new Pagination(pagination.itemsPerPage, 0))], with the
    [pagination] of the render the effect belongs to. *)
Definition paginationEffect (st : State) : State :=
  setPagination
    (Pagination.make (Pagination.itemsPerPage (pagination st)) 0) st.

(** React runs the effects of a committed render after that render, and
    before it handles any further update: the paging effect runs if the
    render changed [filteredUsers], and gives the next render. *)
Definition flushEffects (st : State) : State :=
  if pagingEffectPending st then
    paginationEffect
      (mkState (allUsers st) (filter st) (filteredUsers st) (pagination st)
               (selectedUsers st) (allSelected st) (ordering st) false)
  else st.

(** [setFilteredUsers(v)]: React keeps the state when [v] is the value it
    already holds; otherwise it renders with [v] and the other hooks as they
    are, and the effect that depends on [filteredUsers] is to run after that
    render. *)
Definition setFilteredUsers (v : option JsArray) (st : State) : State :=
  if objectIs (filteredUsers st) v then st
  else mkState (allUsers st) (filter st) v (pagination st)
               (selectedUsers st) (allSelected st) (ordering st) true.

(** The debounced callback of lines 102-104 when its timer fires:
    [setFilteredUsers(filter.apply(allUsers || []))].  The effect of lines
    105-107 re-arms it with the current [allUsers] and [filter] at each of
    their changes, so it fires with the values the state holds; [r] is the
    identity of the array [filter.apply] returns. *)
Definition applyFilter (r : nat) (st : State) : State :=
  setFilteredUsers
    (Some (mkArray r (Filter.apply (filter st) (orEmpty (allUsers st))))) st.

(** What leads from one committed render to the next: a hook is set, or
    the pending effects run. *)
Inductive Event :=
| AllUsersSet (data : option (list User.t))
| FilterSet (f : Filter.t)
| ApplyFilterFired (r : nat)
| PaginationSet (p : Pagination.t)
| SelectedUsersSet (us : list User.t)
| AllSelectedSet (b : bool)
| OrderingSet (o : Ordering.t)
| EffectsFlushed.

(** The next committed render.  Pending effects run before an update is
    handled. *)
Definition step (st : State) (e : Event) : State :=
  match e with
  | AllUsersSet data => setAllUsers data (flushEffects st)
  | FilterSet f => setFilter f (flushEffects st)
  | ApplyFilterFired r => applyFilter r (flushEffects st)
  | PaginationSet p => setPagination p (flushEffects st)
  | SelectedUsersSet us => setSelectedUsers us (flushEffects st)
  | AllSelectedSet b => setAllSelected b (flushEffects st)
  | OrderingSet o => setOrdering o (flushEffects st)
  | EffectsFlushed => flushEffects st
  end.

(** The first render: [initialFilter] is what [Filter.load] restored and
    [p0] is [new Pagination()]; the paging effect is to run once on mount. *)
Definition init (initialFilter : Filter.t) (p0 : Pagination.t) : State :=
  mkState (Some []) initialFilter None p0 [] false Ordering.default true.

Definition run (st : State) (events : list Event) : State :=
  foldl step st events.

(** Lines 116-122. *)
Definition getSelectedUsers (st : State) : list User.t :=
  if allSelected st then
    Pagination.apply (pagination st)
      (Ordering.apply (ordering st) (orEmpty (items <$> filteredUsers st)))
  else selectedUsers st.

End UserView.

(** ** Batch removal: [removeUsers] *)

Module BatchRemove.

(** A JavaScript value as [removeUsers] observes it: through
    [_ instanceof Error] and through [String(_)]. *)
Record JsValue := mkValue {
  instanceofError : bool;
  toString : string;
}.

(** How a promise settles. *)
Inductive Settlement :=
| Fulfilled (value : JsValue)
| Rejected (reason : JsValue).

(** [promise.catch((err) => err)]. *)
Definition catchErr (s : Settlement) : Settlement :=
  match s with
  | Fulfilled value => Fulfilled value
  | Rejected err => Fulfilled err
  end.

(** What the component does to the outside, in the order it does it. *)
Inductive Effect :=
| ShowMessageBoxWithConfirm (text : string)
| ShowLoading (text : string)
| RemoveUserRequest (username : string)
| HideLoading
| SetTimeout (ms : nat)
| ShowMessageBox (text : string)
| RefreshAllUsers.

Inductive Phase :=
| Confirming
| Cancelled
| Removing
| AllRejected (reason : JsValue)
| TimerPending (message : string)
| ShowingSummary (message : string)
| Refreshed.

(** One invocation of [removeUsers]: the selection it captured, one slot
    per promise handed to [Promise.all] ([None] while pending), and the
    effects so far. *)
Record Batch := mkBatch {
  selected : list User.t;
  phase : Phase;
  slots : list (option Settlement);
  effects : list Effect;
}.

Definition newline : string := String (ascii_of_nat 10) EmptyString.

(** [`${n}`] for a length. *)
Definition numberToString (n : nat) : string :=
  NilEmpty.string_of_uint (Nat.to_uint n).

(** The values [Promise.all] fulfils with, in the order of its inputs. *)
Definition results (ss : list (option Settlement)) : list JsValue :=
  omap (fun s => match s with
                 | Some (Fulfilled value) => Some value
                 | _ => None
                 end) ss.

Definition allFulfilled (ss : list (option Settlement)) : bool :=
  forallb (fun s => match s with
                    | Some (Fulfilled _) => true
                    | _ => false
                    end) ss.

(** Lines 139-148: the message built from the results. *)
Definition summary (selected : list User.t) (results : list JsValue) : string :=
  let errors := List.filter instanceofError results in
  let message :=
    "Remove " +:+ (if Nat.eqb (length selected) 1 then "user" else "users") +:+ " " in
  if Nat.eqb (length errors) 0 then message +:+ "successfully."
  else
    foldl (fun message error => message +:+ newline +:+ toString error)
          (message +:+ "with " +:+ numberToString (length errors) +:+ " failed.")
          errors.

(** Lines 131-132: the selection is resolved and the confirmation asked. *)
Definition removeUsers (st : UserView.State) : Batch :=
  let selected := UserView.getSelectedUsers st in
  mkBatch selected Confirming []
    [ShowMessageBoxWithConfirm
       ("Are you sure to remove "
        +:+ (if Nat.eqb (length selected) 1 then "the user" else "these users")
        +:+ "?")].

(** Lines 137-153, the [then] callback of [Promise.all]. *)
Definition thenSummarise (b : Batch) : Batch :=
  mkBatch (selected b)
          (TimerPending (summary (selected b) (results (slots b))))
          (slots b)
          (effects b ++ [HideLoading; SetTimeout 100]).

(** [Promise.all] fulfils once every input is fulfilled. *)
Definition promiseAllCheck (b : Batch) : Batch :=
  if allFulfilled (slots b) then thenSummarise b else b.

(** Lines 135-136: the loading mask, then [selected.map] calls
    [removeUserRequest(user.username).catch(...)] for each user in turn; the
    calls return pending promises. *)
Definition confirmed (b : Batch) : Batch :=
  promiseAllCheck
    (mkBatch (selected b) Removing
       (replicate (length (selected b)) None)
       (effects b ++ ShowLoading "Processing..."
          :: map (fun user => RemoveUserRequest (User.username user)) (selected b))).

(** The [i]-th request settles with [outcome]; the promise in slot [i] is
    the request followed by [catch].  [Promise.all] rejects at the first
    rejected input and otherwise waits for all of them. *)
Definition settle (i : nat) (outcome : Settlement) (b : Batch) : Batch :=
  match slots b !! i with
  | Some None =>
      let s := catchErr outcome in
      let ss := <[i := Some s]> (slots b) in
      match phase b, s with
      | Removing, Rejected reason =>
          mkBatch (selected b) (AllRejected reason) ss (effects b)
      | Removing, Fulfilled _ =>
          promiseAllCheck (mkBatch (selected b) Removing ss (effects b))
      | AllRejected reason, _ =>
          mkBatch (selected b) (AllRejected reason) ss (effects b)
      | _, _ => b
      end
  | _ => b
  end.

Inductive Event :=
| Confirm (answer : bool)
| Settle (i : nat) (outcome : Settlement)
| TimerFired
| Dismiss.

Definition step (b : Batch) (e : Event) : Batch :=
  match e, phase b with
  | Confirm true, Confirming => confirmed b
  | Confirm false, Confirming =>
      mkBatch (selected b) Cancelled (slots b) (effects b)
  | Settle i outcome, _ => settle i outcome b
  | TimerFired, TimerPending message =>
      mkBatch (selected b) (ShowingSummary message) (slots b)
              (effects b ++ [ShowMessageBox message])
  | Dismiss, ShowingSummary _ =>
      mkBatch (selected b) Refreshed (slots b) (effects b ++ [RefreshAllUsers])
  | _, _ => b
  end.

Definition run (b : Batch) (events : list Event) : Batch :=
  foldl step b events.

(** The remove requests issued so far. *)
Definition requests (es : list Effect) : list string :=
  omap (fun e => match e with
                 | RemoveUserRequest name => Some name
                 | _ => None
                 end) es.

Definition refreshes (es : list Effect) : nat :=
  length (List.filter (fun e => match e with
                                | RefreshAllUsers => true
                                | _ => false
                                end) es).

(** The texts shown in a plain message box so far. *)
Definition shown (es : list Effect) : list string :=
  omap (fun e => match e with
                 | ShowMessageBox text => Some text
                 | _ => None
                 end) es.

(** The summary has been produced. *)
Definition summarised (b : Batch) : Prop :=
  match phase b with
  | TimerPending _ | ShowingSummary _ | Refreshed => True
  | _ => False
  end.

(** The value a settled request leaves in the results. *)
Definition collected (outcome : Settlement) : JsValue :=
  match outcome with
  | Fulfilled value => value
  | Rejected reason => reason
  end.

(** The rejection reasons among the outcomes of the requests. *)
Definition failures (outcomes : list Settlement) : list JsValue :=
  omap (fun o => match o with
                 | Rejected reason => Some reason
                 | Fulfilled _ => None
                 end) outcomes.

(** The summary in the words of the specification, to compare [summary]
    with: ["Remove {user|users} successfully."] when no request failed,
    else ["Remove {user|users} with N failed."] followed by a newline and
    the error text of each failed request, [N] being their number. *)
Definition summaryAsSpecified (selected : list User.t)
    (outcomes : list Settlement) : string :=
  let failed := failures outcomes in
  "Remove " +:+ (if Nat.eqb (length selected) 1 then "user" else "users") +:+ " "
  +:+ (if Nat.eqb (length failed) 0 then "successfully."
      else "with " +:+ numberToString (length failed) +:+ " failed."
           +:+ String.concat "" (map (fun e => newline +:+ toString e) failed)).

(** A request that behaves as the REST client is meant to: it rejects with
    an [Error] and fulfils with something that is not one. *)
Definition conventional (outcome : Settlement) : bool :=
  match outcome with
  | Fulfilled value => negb (instanceofError value)
  | Rejected reason => instanceofError reason
  end.

(** What the invariant of a run says of a batch whose confirmation was
    accepted, for the selection [sel]. *)
Definition slotFulfilledOrPending (s : option Settlement) : Prop :=
  match s with
  | Some (Rejected _) => False
  | _ => True
  end.

Definition phaseInvariant (sel : list User.t) (b : Batch) : Prop :=
  match phase b with
  | Removing =>
      allFulfilled (slots b) = false
      /\ shown (effects b) = [] /\ refreshes (effects b) = 0
  | TimerPending message =>
      allFulfilled (slots b) = true
      /\ message = summary sel (results (slots b))
      /\ shown (effects b) = [] /\ refreshes (effects b) = 0
  | ShowingSummary message =>
      allFulfilled (slots b) = true
      /\ message = summary sel (results (slots b))
      /\ shown (effects b) = [message] /\ refreshes (effects b) = 0
  | Refreshed =>
      allFulfilled (slots b) = true
      /\ shown (effects b) = [summary sel (results (slots b))]
      /\ refreshes (effects b) = 1
  | Confirming | Cancelled | AllRejected _ => False
  end.

Record invariant (sel : list User.t) (b : Batch) : Prop := mkInvariant {
  inv_selected : selected b = sel;
  inv_length : length (slots b) = length sel;
  inv_slots : Forall slotFulfilledOrPending (slots b);
  inv_requests : requests (effects b) = map User.username sel;
  inv_phase : phaseInvariant sel b;
}.

(** The events of a run in which the requests settle in the order they
    were issued. *)
Definition settleInOrder (outcomes : list Settlement) : list Event :=
  imap Settle outcomes.

End BatchRemove.

(** ** Directory group lookup: [initConfig], [getUserGroupList] *)

Module GroupLookup.

(** The JSON values a [displayName] property can hold; numbers are
    integers here. *)
Inductive Json :=
| JNull
| JBool (b : bool)
| JNumber (z : Z)
| JString (s : string)
| JObject.

(** [if (v)] on a JSON value. *)
Definition truthy (v : Json) : bool :=
  match v with
  | JNull => false
  | JBool b => b
  | JNumber z => negb (Z.eqb z 0)
  | JString s => negb (String.eqb s "")
  | JObject => true
  end.

(** A record of the [value] array; [displayName] is [None] when the
    property is absent. *)
Record GroupItem := mkItem {
  displayName : option Json;
}.

(** [response.data] of an answer in the format of the directory API: an
    object with a [value] array of group records and, when there are more
    pages, the ['@odata.nextLink'] string.  Bodies of another shape are not
    represented. *)
Record ResponseData := mkData {
  value : list GroupItem;
  nextLink : option string;
}.

Record Config := mkConfig {
  msGraphAPI : string;
  Authorization : string;
}.

Definition initConfig (msGraphUrl accessToken : string) : Config :=
  mkConfig (msGraphUrl +:+ "v1.0/me/memberOf") ("Bearer " +:+ accessToken).

(** The arguments of one [axios.get] call. *)
Record Request := mkRequest {
  url : string;
  acceptHeader : string;
  authorizationHeader : string;
}.

Inductive Effect :=
| AxiosGet (request : Request)
| ConsoleLog (dataBlock : list GroupItem).

(** How a call ends: with a value, with a thrown value, or not within
    the iterations allowed to the loop. *)
Inductive Outcome (E A : Type) :=
| Returned (a : A)
| Thrown (error : E)
| OutOfFuel.

Arguments Returned {E A} a.
Arguments Thrown {E A} error.
Arguments OutOfFuel {E A}.

Section with_transport.

(** The directory service and the network: [axiosGet] answers a request
    in a state of the world with a response or a failure, and leaves a new
    state. *)
Variable World : Type.
Variable Err : Type.
Variable axiosGet : Request -> World -> (Err + ResponseData) * World.

Definition requestFor (config : Config) (requestUrl : string) : Request :=
  mkRequest requestUrl "application/json" (Authorization config).

(** Lines 280-293: the [while (true)] loop, [fuel] bounding its
    iterations. *)
Fixpoint fetchLoop (fuel : nat) (config : Config) (requestUrl : string)
    (responseData : list (list GroupItem)) (log : list Effect) (w : World)
  : Outcome Err (list (list GroupItem)) * list Effect * World :=
  match fuel with
  | 0 => (OutOfFuel, log, w)
  | S fuel' =>
      let request := requestFor config requestUrl in
      let log := log ++ [AxiosGet request] in
      match axiosGet request w with
      | (inl error, w') => (Thrown error, log, w')
      | (inr data, w') =>
          let responseData := responseData ++ [value data] in
          match nextLink data with
          | Some next => fetchLoop fuel' config next responseData log w'
          | None => (Returned responseData, log, w')
          end
      end
  end.

(** Lines 298-302: the inner loop over one block. *)
Definition pushNames (groupList : list Json) (dataBlock : list GroupItem)
  : list Json :=
  foldl (fun groupList groupItem =>
           match displayName groupItem with
           | Some name => if truthy name then groupList ++ [name] else groupList
           | None => groupList
           end) groupList dataBlock.

(** Lines 294-303: the outer loop, logging each block before reading it. *)
Definition collectGroups (responseData : list (list GroupItem))
  : list Json * list Effect :=
  foldl (fun '(groupList, log) dataBlock =>
           (pushNames groupList dataBlock, log ++ [ConsoleLog dataBlock]))
        ([], []) responseData.

(** Lines 275-308.  The [catch] clause rethrows what it caught. *)
Definition getUserGroupList (fuel : nat) (username : string) (config : Config)
    (w : World) : Outcome Err (list Json) * list Effect * World :=
  match fetchLoop fuel config (msGraphAPI config) [] [] w with
  | (Returned responseData, log, w') =>
      let '(groupList, logged) := collectGroups responseData in
      (Returned groupList, log ++ logged, w')
  | (Thrown error, log, w') => (Thrown error, log, w')
  | (OutOfFuel, log, w') => (OutOfFuel, log, w')
  end.

(** The display names of one page that are present and truthy. *)
Definition namesOf (data : ResponseData) : list Json :=
  omap (fun groupItem =>
          match displayName groupItem with
          | Some name => if truthy name then Some name else None
          | None => None
          end) (value data).

(** The requests among the effects. *)
Definition requested (log : list Effect) : list Request :=
  omap (fun e => match e with
                 | AxiosGet request => Some request
                 | ConsoleLog _ => None
                 end) log.

(** [answers config w u pages w']: from the world [w], a request for [u]
    is answered by the first of [pages], each page but the last carries the
    link that the next one answers, the last carries none, and the world is
    [w'] after the last answer. *)
Inductive answers (config : Config)
  : World -> string -> list ResponseData -> World -> Prop :=
| answers_last w u data w' :
    axiosGet (requestFor config u) w = (inr data, w') ->
    nextLink data = None ->
    answers config w u [data] w'
| answers_next w u data next w' pages w'' :
    axiosGet (requestFor config u) w = (inr data, w') ->
    nextLink data = Some next ->
    answers config w' next pages w'' ->
    answers config w u (data :: pages) w''.

(** [failing config w u pages error w']: as above for [pages], every
    one of which carries a link, and the request that follows the last of
    them fails with [error], leaving the world [w']. *)
Inductive failing (config : Config)
  : World -> string -> list ResponseData -> Err -> World -> Prop :=
| failing_here w u error w' :
    axiosGet (requestFor config u) w = (inl error, w') ->
    failing config w u [] error w'
| failing_next w u data next w' pages error w'' :
    axiosGet (requestFor config u) w = (inr data, w') ->
    nextLink data = Some next ->
    failing config w' next pages error w'' ->
    failing config w u (data :: pages) error w''.

(** The requests of a lookup that receives [pages]: the configured URL,
    then the link of each page that has one. *)
Definition requestsFor (config : Config) (pages : list ResponseData)
  : list Request :=
  map (requestFor config) (msGraphAPI config :: omap nextLink pages).

End with_transport.

End GroupLookup.

(** ** The message box: [showMessageBox], [hideMessageBox] *)

Module MessageBox.

(** The object held by the [messageBox] hook.  [setMessageBox] replaces
    the whole object, so a property the new object does not mention is
    undefined ([None]); [resolve] names the promise whose resolver is
    stored. *)
Record Box := mkBox {
  text : string;
  confirm : option bool;
  resolve : option nat;
}.

(** The hook together with the promises created so far: promise [p] is
    pending ([None]) or resolved with a value. *)
Record State (V : Type) := mkState {
  messageBox : Box;
  promises : list (option V);
}.

Arguments mkState {V} messageBox promises.
Arguments messageBox {V} s.
Arguments promises {V} s.

(** Line 53. *)
Definition initial {V} : State V := mkState (mkBox "" (Some false) None) [].

(** Calling the resolver of promise [p]: a promise keeps its first
    resolution. *)
Definition callResolve {V} (p : nat) (value : V) (ps : list (option V))
  : list (option V) :=
  match ps !! p with
  | Some None => <[p := Some value]> ps
  | _ => ps
  end.

(** Lines 54-58; [text] is [String(value)].  Returns the new state and the
    promise. *)
Definition showMessageBox {V} (text : string) (st : State V) : State V * nat :=
  let p := length (promises st) in
  (mkState (mkBox text None (Some p)) (promises st ++ [None]), p).

(** Lines 59-63. *)
Definition showMessageBoxWithConfirm {V} (text : string) (st : State V)
  : State V * nat :=
  let p := length (promises st) in
  (mkState (mkBox text (Some true) (Some p)) (promises st ++ [None]), p).

(** Lines 64-70. *)
Definition hideMessageBox {V} (value : V) (st : State V) : State V :=
  let resolve := resolve (messageBox st) in
  mkState (mkBox "" None None)
    (match resolve with
     | Some p => callResolve p value (promises st)
     | None => promises st
     end).

(** Line 244: [messageBox.text && <MessageBox ... />]. *)
Definition rendered {V} (st : State V) : bool :=
  negb (String.eqb (text (messageBox st)) "").

(** What happens to the hook: the component asks for a box, or the
    rendered box calls [onDismiss]. *)
Inductive Event (V : Type) :=
| Show (text : string)
| ShowWithConfirm (text : string)
| Dismissed (value : V).

Arguments Show {V} text.
Arguments ShowWithConfirm {V} text.
Arguments Dismissed {V} value.

Definition step {V} (st : State V) (e : Event V) : State V :=
  match e with
  | Show text => fst (showMessageBox text st)
  | ShowWithConfirm text => fst (showMessageBoxWithConfirm text st)
  | Dismissed value => if rendered st then hideMessageBox value st else st
  end.

Definition run {V} (st : State V) (events : list (Event V)) : State V :=
  foldl step st events.

(** The event asks for a box (with or without the confirm button). *)
Definition isShow {V} (e : Event V) : bool :=
  match e with
  | Show _ | ShowWithConfirm _ => true
  | Dismissed _ => false
  end.

(** The text an event asks to show. *)
Definition shownText {V} (e : Event V) : string :=
  match e with
  | Show text | ShowWithConfirm text => text
  | Dismissed _ => ""
  end.

(** Promise [p] is pending and no rendered box holds its resolver. *)
Definition orphaned {V} (p : nat) (st : State V) : Prop :=
  promises st !! p = Some None
  /\ (resolve (messageBox st) = Some p -> text (messageBox st) = "").

End MessageBox.

(** ** Runs of the view *)

(** No event of the list is the user choosing a page or a page size. *)
Definition noPaging (events : list UserView.Event) : bool :=
  forallb (fun e => match e with
                    | UserView.PaginationSet _ => false
                    | _ => true
                    end) events.

(** ** Schedules of a batch removal *)

(** The outcome with which request [i] settles first in [events]. *)
Fixpoint firstOutcome (i : nat) (events : list BatchRemove.Event)
  : option BatchRemove.Settlement :=
  match events with
  | [] => None
  | BatchRemove.Settle j outcome :: rest =>
      if Nat.eqb i j then Some outcome else firstOutcome i rest
  | _ :: rest => firstOutcome i rest
  end.

(** No event of the list accepts the confirmation. *)
Definition neverAccepted (events : list BatchRemove.Event) : bool :=
  forallb (fun e => match e with
                    | BatchRemove.Confirm true => false
                    | _ => true
                    end) events.

(** What the component has done after the requests were issued, by phase. *)
Definition afterRequests (b : BatchRemove.Batch) : list BatchRemove.Effect :=
  match BatchRemove.phase b with
  | BatchRemove.TimerPending _ =>
      [BatchRemove.HideLoading; BatchRemove.SetTimeout 100]
  | BatchRemove.ShowingSummary message =>
      [BatchRemove.HideLoading; BatchRemove.SetTimeout 100;
       BatchRemove.ShowMessageBox message]
  | BatchRemove.Refreshed =>
      [BatchRemove.HideLoading; BatchRemove.SetTimeout 100;
       BatchRemove.ShowMessageBox
         (BatchRemove.summary (BatchRemove.selected b)
            (BatchRemove.results (BatchRemove.slots b)));
       BatchRemove.RefreshAllUsers]
  | _ => []
  end.

(** ** Sample data *)

Module Sample.

Definition alice : User.t := User.make "alice" true {["default"]}.
Definition bob : User.t := User.make "Bob" false {["default"; "vc1"]}.
Definition carol : User.t := User.make "carol" false {["vc1"]}.
Definition dave : User.t := User.make "dave" true ∅.
Definition erin : User.t := User.make "Erin" false {["vc2"]}.

Definition roster : list User.t := [alice; bob; carol; dave; erin].

(** The users that are not administrators, two rows per page. *)
Definition nonAdmins : Filter.t := Filter.make None (Some false) None.
Definition twoPerPage : Pagination.t := Pagination.make 2 0.

(** A state in which the roster has been loaded, the filter has been
    applied and "all selected" is active; [bob] was ticked before. *)
Definition selectAllState : UserView.State :=
  UserView.run (UserView.init nonAdmins twoPerPage)
    [UserView.AllUsersSet (Some roster);
     UserView.OrderingSet (Ordering.make (Some Ordering.ByUsername) true);
     UserView.ApplyFilterFired 1;
     UserView.SelectedUsersSet [bob];
     UserView.AllSelectedSet true].

(** The same view with one explicitly ticked user. *)
Definition oneTickedState : UserView.State :=
  UserView.setAllSelected false selectAllState.

(** Three explicitly ticked users. *)
Definition threeTickedState : UserView.State :=
  UserView.setSelectedUsers [alice; bob; carol] oneTickedState.

(** Values a remove request settles with. *)
Definition removed : BatchRemove.JsValue :=
  BatchRemove.mkValue false "[object Object]".
Definition notFound : BatchRemove.JsValue :=
  BatchRemove.mkValue true "Error: User not found".
Definition timeoutText : BatchRemove.JsValue :=
  BatchRemove.mkValue false "timeout".

(** A directory with two pages of memberships; the world counts the
    requests served, and a request without the bearer token is refused. *)
Definition graphConfig : GroupLookup.Config :=
  GroupLookup.initConfig "https://graph.example/" "secret".

Definition firstPage : GroupLookup.ResponseData :=
  GroupLookup.mkData
    [GroupLookup.mkItem (Some (GroupLookup.JString "admins"));
     GroupLookup.mkItem None;
     GroupLookup.mkItem (Some (GroupLookup.JString ""))]
    (Some "https://graph.example/v1.0/me/memberOf?$skiptoken=1").

Definition secondPage : GroupLookup.ResponseData :=
  GroupLookup.mkData
    [GroupLookup.mkItem (Some GroupLookup.JNull);
     GroupLookup.mkItem (Some (GroupLookup.JString "users"))]
    None.

Definition directory (request : GroupLookup.Request) (served : nat)
  : (string + GroupLookup.ResponseData) * nat :=
  if negb (String.eqb (GroupLookup.authorizationHeader request) "Bearer secret")
  then (inl "401 Unauthorized", S served)
  else if String.eqb (GroupLookup.url request)
                     "https://graph.example/v1.0/me/memberOf"
  then (inr firstPage, S served)
  else if String.eqb (GroupLookup.url request)
                     "https://graph.example/v1.0/me/memberOf?$skiptoken=1"
  then (inr secondPage, S served)
  else (inl "404 Not Found", S served).

(** A directory whose every answer links to a further page. *)
Definition endlessDirectory (request : GroupLookup.Request) (served : nat)
  : (string + GroupLookup.ResponseData) * nat :=
  (inr (GroupLookup.mkData [] (Some (GroupLookup.url request))), S served).

(** The same directory when the connection drops after one answer. *)
Definition droppingDirectory (request : GroupLookup.Request) (served : nat)
  : (string + GroupLookup.ResponseData) * nat :=
  if Nat.ltb served 1 then directory request served
  else (inl "ECONNRESET", S served).

End Sample.

(** * Properties *)

(** *** Facts about slices *)

Lemma slice_length {A} (start stop : nat) (l : list A) :
  length (Pagination.slice start stop l) = min (stop - start) (length l - start).
Proof. unfold Pagination.slice. by rewrite length_take, length_drop. Qed.

Lemma slice_lookup {A} (start stop : nat) (l : list A) (i : nat) :
  Pagination.slice start stop l !! i =
  if decide (i < stop - start) then l !! (start + i) else None.
Proof.
  unfold Pagination.slice. case_decide as Hi.
  - by rewrite lookup_take_lt, lookup_drop.
  - apply lookup_take_ge. lia.
Qed.

Lemma slice_sublist {A} (start stop : nat) (l : list A) :
  Pagination.slice start stop l `sublist_of` l.
Proof.
  unfold Pagination.slice.
  etrans; [apply sublist_take | apply sublist_drop].
Qed.

Lemma slice_nil {A} (start stop : nat) :
  Pagination.slice start stop (@nil A) = [].
Proof. unfold Pagination.slice. by rewrite drop_nil, take_nil. Qed.

Lemma pagination_apply_sublist {A} (p : Pagination.t) (l : list A) :
  Pagination.apply p l `sublist_of` l.
Proof. apply slice_sublist. Qed.

Lemma pagination_apply_nil {A} (p : Pagination.t) :
  Pagination.apply p (@nil A) = [].
Proof. apply slice_nil. Qed.

(** C7.  For every sequence [L], page index [p] and page size [n],
    [Pagination.apply] returns exactly the elements of [L] at the positions
    [p*n <= j < min (length L) ((p+1)*n)], in order: its length is the width
    of that window, its [i]-th element is [L[p*n + i]], and it is the empty
    sequence (no failure) whenever [p*n >= length L]. *)
Theorem pagination_apply_is_page_slice :
  forall {A} (L : list A) (p n : nat),
    let page := Pagination.apply (Pagination.make n p) L in
    length page = min (length L) ((p + 1) * n) - p * n
    /\ (forall i, i < min (length L) ((p + 1) * n) - p * n ->
                  page !! i = L !! (p * n + i))
    /\ (forall i, min (length L) ((p + 1) * n) - p * n <= i -> page !! i = None)
    /\ (length L <= p * n -> page = []).
Proof.
  intros A L p n page. subst page. unfold Pagination.apply. simpl.
  set (start := p * n). set (stop := min (length L) ((p + 1) * n)).
  assert (Hlen : length (Pagination.slice start stop L) = stop - start).
  { rewrite slice_length. subst start stop. lia. }
  repeat split.
  - exact Hlen.
  - intros i Hi. rewrite slice_lookup. by case_decide.
  - intros i Hi. rewrite slice_lookup. case_decide; [lia | done].
  - intros Hout. apply length_zero_iff_nil. rewrite Hlen.
    subst start stop. lia.
Qed.

(** The scenario of a 45-user filtered list with 20 rows per page: page 0
    holds 20 users and page 2 the remaining 5. *)
Example pagination_45_users :
  length (Pagination.apply (Pagination.make 20 0) (seq 0 45)) = 20
  /\ Pagination.apply (Pagination.make 20 2) (seq 0 45) = [40; 41; 42; 43; 44]
  /\ Pagination.apply (Pagination.make 20 3) (seq 0 45) = [].
Proof. repeat split. Qed.

Lemma list_filter_all_true {A} (f : A -> bool) (l : list A) :
  (forall x, f x = true) -> List.filter f l = l.
Proof.
  intros Hf. induction l as [|x l IH]; simpl; [done|].
  by rewrite Hf, IH.
Qed.

Lemma list_filter_sublist {A} (f : A -> bool) (l : list A) :
  List.filter f l `sublist_of` l.
Proof.
  induction l as [|x l IH]; simpl; [done|].
  destruct (f x); by constructor.
Qed.

Lemma filter_apply_sublist (f : Filter.t) (users : list User.t) :
  Filter.apply f users `sublist_of` users.
Proof. apply list_filter_sublist. Qed.

Lemma filter_apply_elem (f : Filter.t) (users : list User.t) (u : User.t) :
  u ∈ Filter.apply f users <-> u ∈ users /\ Filter.matches f u = true.
Proof.
  unfold Filter.apply. rewrite !list_elem_of_In. apply filter_In.
Qed.

Lemma ordering_insert_perm k desc u (l : list User.t) :
  Ordering.insert k desc u l ≡ₚ u :: l.
Proof.
  induction l as [|v l IH]; simpl; [done|].
  destruct (Ordering.inOrder k desc u v); [done|].
  rewrite IH. apply Permutation_swap.
Qed.

Lemma ordering_apply_perm (o : Ordering.t) (users : list User.t) :
  Ordering.apply o users ≡ₚ users.
Proof.
  unfold Ordering.apply. destruct (Ordering.field o) as [k|]; [|done].
  unfold Ordering.sort.
  induction users as [|u users IH]; simpl; [done|].
  by rewrite ordering_insert_perm, IH.
Qed.

Lemma ordering_apply_nil (o : Ordering.t) : Ordering.apply o [] = [].
Proof. unfold Ordering.apply. by destruct (Ordering.field o). Qed.

(** ** Selection and paging in the view *)

Section view_facts.
Import UserView.

Lemma pagination_apply_lookup {A} (p : Pagination.t) (l : list A) (i : nat) :
  i < Pagination.itemsPerPage p ->
  Pagination.apply p l !! i
  = l !! (Pagination.currentPage p * Pagination.itemsPerPage p + i).
Proof.
  intros Hi. unfold Pagination.apply. rewrite slice_lookup.
  case_decide as Hin; [done|].
  symmetry. apply lookup_ge_None_2. lia.
Qed.

Lemma pagination_apply_length {A} (p : Pagination.t) (l : list A) :
  length (Pagination.apply p l)
  = min (length l) ((Pagination.currentPage p + 1) * Pagination.itemsPerPage p)
    - Pagination.currentPage p * Pagination.itemsPerPage p.
Proof. unfold Pagination.apply. rewrite slice_length. lia. Qed.

Lemma getSelectedUsers_allUsers_irrelevant (data : option (list User.t)) (st : State) :
  getSelectedUsers (setAllUsers data st) = getSelectedUsers st.
Proof. done. Qed.

Lemma getSelectedUsers_sublist_of_ordered (st : State) :
  allSelected st = true ->
  getSelectedUsers st `sublist_of`
    Ordering.apply (ordering st) (orEmpty (items <$> filteredUsers st)).
Proof.
  intros Hall. unfold getSelectedUsers. rewrite Hall.
  apply pagination_apply_sublist.
Qed.

Lemma getSelectedUsers_elem_filtered (st : State) (u : User.t) :
  allSelected st = true ->
  u ∈ getSelectedUsers st -> u ∈ orEmpty (items <$> filteredUsers st).
Proof.
  intros Hall Hu.
  rewrite <- (ordering_apply_perm (ordering st)).
  eapply elem_of_sublist; [exact Hu|].
  by apply getSelectedUsers_sublist_of_ordered.
Qed.




Lemma flushEffects_idle (st : State) :
  pagingEffectPending st = false -> flushEffects st = st.
Proof. intros Hp. unfold flushEffects. by rewrite Hp. Qed.

Lemma setFilteredUsers_pagination (v : option JsArray) (st : State) :
  pagination (setFilteredUsers v st) = pagination st.
Proof. unfold setFilteredUsers. by destruct (objectIs _ _). Qed.


Lemma step_keeps_page (st : State) (e : Event) :
  match e with PaginationSet _ => false | _ => true end = true ->
  Pagination.itemsPerPage (pagination (step st e))
  = Pagination.itemsPerPage (pagination st)
  /\ (Pagination.currentPage (pagination (step st e)) = 0
      \/ pagination (step st e) = pagination st).
Proof.
  intros He.
  assert (Hflush :
    Pagination.itemsPerPage (pagination (flushEffects st))
    = Pagination.itemsPerPage (pagination st)
    /\ (Pagination.currentPage (pagination (flushEffects st)) = 0
        \/ pagination (flushEffects st) = pagination st)).
  { unfold flushEffects. destruct (pagingEffectPending st); simpl; auto. }
  destruct e as [data|f|r|p|us|b|o|]; try done; simpl; try exact Hflush.
  unfold applyFilter. rewrite setFilteredUsers_pagination. exact Hflush.
Qed.


End view_facts.

Section view_claims.
Import UserView.

(** C1.  In every view state, when "all selected" is active
    [getSelectedUsers] returns [Pagination.apply (Ordering.apply filteredUsers)]
    of the current state: when the filtered list holds an array it is the
    current page of the ordered elements of that array, row by row; every
    user it returns is taken from the filtered list, the raw user list plays
    no part, and right after the filter has been applied it is the current
    page of the ordered filter result, all of whose users belong to the
    roster and satisfy the filter.  Otherwise it returns the tracked
    selection verbatim, whatever the filter and the filtered list have
    become. *)
Theorem getSelectedUsers_resolves_selection (st : State) :
  (allSelected st = true ->
     getSelectedUsers st =
       Pagination.apply (pagination st)
         (Ordering.apply (ordering st) (orEmpty (items <$> filteredUsers st)))
     /\ (forall array,
           filteredUsers st = Some array ->
           getSelectedUsers st =
             Pagination.apply (pagination st)
               (Ordering.apply (ordering st) (items array))
           /\ (forall i,
                 i < Pagination.itemsPerPage (pagination st) ->
                 getSelectedUsers st !! i
                 = Ordering.apply (ordering st) (items array)
                     !! (Pagination.currentPage (pagination st)
                         * Pagination.itemsPerPage (pagination st) + i))
           /\ length (getSelectedUsers st)
              = min (length (items array))
                    ((Pagination.currentPage (pagination st) + 1)
                     * Pagination.itemsPerPage (pagination st))
                - Pagination.currentPage (pagination st)
                  * Pagination.itemsPerPage (pagination st))
     /\ (forall u, u ∈ getSelectedUsers st ->
                   u ∈ orEmpty (items <$> filteredUsers st))
     /\ (forall data,
           getSelectedUsers (setAllUsers data st) = getSelectedUsers st)
     /\ (forall r,
           objectIs (filteredUsers st)
             (Some (mkArray r (Filter.apply (filter st) (orEmpty (allUsers st)))))
           = false ->
           getSelectedUsers (applyFilter r st)
           = Pagination.apply (pagination st)
               (Ordering.apply (ordering st)
                  (Filter.apply (filter st) (orEmpty (allUsers st))))
           /\ (forall u,
                 u ∈ getSelectedUsers (applyFilter r st) ->
                 u ∈ orEmpty (allUsers st) /\ Filter.matches (filter st) u = true)))
  /\ (allSelected st = false ->
        getSelectedUsers st = selectedUsers st
        /\ forall f r,
             getSelectedUsers (applyFilter r (setFilter f st)) = selectedUsers st).
Proof.
  split; intros Hall.
  - split; [by unfold getSelectedUsers; rewrite Hall|].
    split.
    { intros array Harray.
      assert (Heq : getSelectedUsers st
                    = Pagination.apply (pagination st)
                        (Ordering.apply (ordering st) (items array))).
      { unfold getSelectedUsers. by rewrite Hall, Harray. }
      split; [exact Heq|]. rewrite Heq. split.
      - intros i Hi. by apply pagination_apply_lookup.
      - rewrite pagination_apply_length.
        by rewrite (Permutation_length (ordering_apply_perm _ _)). }
    split; [intros u; by apply getSelectedUsers_elem_filtered|].
    split; [done|].
    intros r Hch.
    assert (Heq : getSelectedUsers (applyFilter r st)
                  = Pagination.apply (pagination st)
                      (Ordering.apply (ordering st)
                         (Filter.apply (filter st) (orEmpty (allUsers st))))).
    { unfold applyFilter, setFilteredUsers. rewrite Hch.
      unfold getSelectedUsers. simpl. by rewrite Hall. }
    split; [exact Heq|].
    intros u Hu. apply filter_apply_elem.
    rewrite Heq in Hu.
    rewrite <- (ordering_apply_perm (ordering st)).
    eapply elem_of_sublist; [exact Hu | apply pagination_apply_sublist].
  - split; [by unfold getSelectedUsers; rewrite Hall|].
    intros f r. unfold getSelectedUsers, applyFilter, setFilteredUsers.
    destruct (objectIs _ _); simpl; by rewrite Hall.
Qed.


(** C8.  The filter with every predicate field unset is the identity for
    [apply]: it returns the elements of [L] in their order; and when the
    view applies it, the filtered list holds the elements of the roster in
    their order, in an array of its own identity [r]. *)
Theorem empty_filter_is_identity (L : list User.t) :
  Filter.apply Filter.empty L = L
  /\ (forall st r,
        filter st = Filter.empty ->
        allUsers st = Some L ->
        objectIs (filteredUsers st) (Some (mkArray r L)) = false ->
        filteredUsers (applyFilter r st) = Some (mkArray r L)).
Proof.
  assert (Hid : Filter.apply Filter.empty L = L).
  { unfold Filter.apply. by apply list_filter_all_true. }
  split; [exact Hid|].
  intros st r Hf Hus Hch.
  unfold applyFilter, setFilteredUsers. rewrite Hf, Hus. simpl.
  rewrite Hid. by rewrite Hch.
Qed.

(** C10.  [getSelectedUsers] is defined on every state; while the filtered
    list is still null and "all selected" is active it pages over the empty
    list and returns the empty sequence.  This is the situation right after
    mounting, before the debounced filter computation has run. *)
Theorem getSelectedUsers_before_first_filtering (st : State) :
  filteredUsers st = None ->
  allSelected st = true ->
  getSelectedUsers st = []
  /\ getSelectedUsers st
     = Pagination.apply (pagination st) (Ordering.apply (ordering st) []).
Proof.
  intros Hnull Hall. unfold getSelectedUsers. rewrite Hall, Hnull. simpl.
  by rewrite ordering_apply_nil, pagination_apply_nil.
Qed.

End view_claims.

(** *** The claims at the sample data *)

Section view_witnesses.
Import UserView Sample.

Lemma pagination_apply_is_page_slice_witness :
  Pagination.apply (Pagination.make 2 1) roster !! 1 = roster !! (1 * 2 + 1)
  /\ Pagination.apply (Pagination.make 2 3) roster = [].
Proof.
  split.
  - destruct (pagination_apply_is_page_slice roster 1 2) as (_ & Hin & _ & _).
    apply Hin. simpl. lia.
  - destruct (pagination_apply_is_page_slice roster 3 2) as (_ & _ & _ & Hout).
    apply Hout. simpl. lia.
Defined.

Lemma getSelectedUsers_resolves_selection_witness :
  (allSelected selectAllState = true
   /\ filteredUsers selectAllState = Some (mkArray 1 [bob; carol; erin])
   /\ getSelectedUsers selectAllState = [carol; erin])
  /\ (allSelected (setAllSelected false selectAllState) = false
      /\ getSelectedUsers (setAllSelected false selectAllState) = [bob]).
Proof.
  split.
  - split; [reflexivity|]. split; [reflexivity|].
    destruct (getSelectedUsers_resolves_selection selectAllState) as [Hall _].
    destruct (Hall eq_refl) as (_ & Harray & _).
    destruct (Harray (mkArray 1 [bob; carol; erin]) eq_refl) as (Heq & _).
    exact Heq.
  - split; [reflexivity|].
    destruct (getSelectedUsers_resolves_selection
                (setAllSelected false selectAllState)) as [_ Hsel].
    destruct (Hsel eq_refl) as (Heq & _). exact Heq.
Defined.



Lemma empty_filter_is_identity_witness :
  filteredUsers
    (applyFilter 1 (setAllUsers (Some roster) (init Filter.empty twoPerPage)))
  = Some (mkArray 1 roster).
Proof.
  destruct (empty_filter_is_identity roster) as [_ Hview].
  apply Hview; reflexivity.
Defined.

Lemma getSelectedUsers_before_first_filtering_witness :
  getSelectedUsers (setAllSelected true (init nonAdmins twoPerPage)) = [].
Proof.
  apply (getSelectedUsers_before_first_filtering
           (setAllSelected true (init nonAdmins twoPerPage)));
    reflexivity.
Defined.

End view_witnesses.

(** ** Batch removal *)

Section batch_facts.
Import BatchRemove.

Lemma requests_app (es1 es2 : list Effect) :
  requests (es1 ++ es2) = requests es1 ++ requests es2.
Proof. apply omap_app. Qed.

Lemma refreshes_app (es1 es2 : list Effect) :
  refreshes (es1 ++ es2) = refreshes es1 + refreshes es2.
Proof. unfold refreshes. by rewrite List.filter_app, length_app. Qed.

Lemma requests_issue (users : list User.t) :
  requests (map (fun user => RemoveUserRequest (User.username user)) users)
  = map User.username users.
Proof. induction users as [|u users IH]; simpl; [done|]. by rewrite <- IH. Qed.

Lemma refreshes_issue (users : list User.t) :
  refreshes (map (fun user => RemoveUserRequest (User.username user)) users) = 0.
Proof. by induction users. Qed.

Lemma allFulfilled_pending (ss : list (option Settlement)) (i : nat) :
  ss !! i = Some None -> allFulfilled ss = false.
Proof.
  revert i. induction ss as [|s ss IH]; intros [|i] Hi; simplify_eq/=; [done|].
  rewrite (IH i Hi). by destruct s as [[]|].
Qed.

Lemma allFulfilled_lookup (ss : list (option Settlement)) :
  allFulfilled ss = true <->
  forall i, i < length ss -> exists value, ss !! i = Some (Some (Fulfilled value)).
Proof.
  induction ss as [|s ss IH]; simpl.
  - split; [intros _ i; lia | done].
  - rewrite andb_true_iff, IH. split.
    + intros [Hs Hss] [|i] Hi; simpl.
      * destruct s as [[value|]|]; try done. by exists value.
      * apply Hss. lia.
    + intros Hall. split.
      * destruct (Hall 0) as [value Hv]; [lia|]. by simplify_eq/=.
      * intros i Hi. apply (Hall (S i)). lia.
Qed.

Lemma allFulfilled_results_length (ss : list (option Settlement)) :
  allFulfilled ss = true -> length (results ss) = length ss.
Proof.
  induction ss as [|[[value|]|] ss IH]; simpl; try done.
  intros Hss. unfold results in *. simpl. by rewrite IH.
Qed.

Lemma results_settled (outcomes : list Settlement) :
  results (map (fun o => Some (catchErr o)) outcomes) = map collected outcomes.
Proof.
  induction outcomes as [|[value|reason] outcomes IH]; simpl; [done| |];
    unfold results in *; simpl; by rewrite IH.
Qed.

Lemma allFulfilled_settled (outcomes : list Settlement) :
  allFulfilled (map (fun o => Some (catchErr o)) outcomes) = true.
Proof. induction outcomes as [|[value|reason] outcomes IH]; simpl; done. Qed.

Lemma shown_app (es1 es2 : list Effect) :
  shown (es1 ++ es2) = shown es1 ++ shown es2.
Proof. apply omap_app. Qed.

Lemma shown_issue (users : list User.t) :
  shown (map (fun user => RemoveUserRequest (User.username user)) users) = [].
Proof. by induction users. Qed.

Lemma requests_cons (e : Effect) (es : list Effect) :
  requests (e :: es) =
  match e with
  | RemoveUserRequest name => name :: requests es
  | _ => requests es
  end.
Proof. by destruct e. Qed.

Lemma refreshes_cons (e : Effect) (es : list Effect) :
  refreshes (e :: es) =
  match e with
  | RefreshAllUsers => S (refreshes es)
  | _ => refreshes es
  end.
Proof. by destruct e. Qed.

Lemma shown_cons (e : Effect) (es : list Effect) :
  shown (e :: es) =
  match e with
  | ShowMessageBox text => text :: shown es
  | _ => shown es
  end.
Proof. by destruct e. Qed.

Lemma invariant_confirmed (st : UserView.State) :
  invariant (UserView.getSelectedUsers st) (confirmed (removeUsers st)).
Proof.
  unfold confirmed, promiseAllCheck, removeUsers. simpl.
  set (sel := UserView.getSelectedUsers st).
  set (question := ShowMessageBoxWithConfirm _).
  set (issue := map (fun user => RemoveUserRequest (User.username user)) sel).
  assert (Hreq : requests (question :: ShowLoading "Processing..." :: issue)
                 = map User.username sel).
  { rewrite !requests_cons. simpl. apply requests_issue. }
  assert (Href : refreshes (question :: ShowLoading "Processing..." :: issue) = 0).
  { rewrite !refreshes_cons. simpl. apply refreshes_issue. }
  assert (Hshown : shown (question :: ShowLoading "Processing..." :: issue) = []).
  { rewrite !shown_cons. simpl. apply shown_issue. }
  destruct (allFulfilled (replicate (length sel) None)) eqn:Hall.
  - split; simpl;
      [done | apply length_replicate | by apply Forall_replicate | | ].
    + change (requests ((question :: ShowLoading "Processing..." :: issue)
                          ++ [HideLoading; SetTimeout 100])
              = map User.username sel).
      rewrite requests_app, Hreq. apply app_nil_r.
    + unfold phaseInvariant. simpl. rewrite Hall.
      change (true = true /\ summary sel (results (replicate (length sel) None))
                = summary sel (results (replicate (length sel) None))
              /\ shown ((question :: ShowLoading "Processing..." :: issue)
                          ++ [HideLoading; SetTimeout 100]) = []
              /\ refreshes ((question :: ShowLoading "Processing..." :: issue)
                          ++ [HideLoading; SetTimeout 100]) = 0).
      by rewrite shown_app, refreshes_app, Href, Hshown.
  - split; simpl;
      [done | apply length_replicate | by apply Forall_replicate | done | ].
    unfold phaseInvariant. simpl. by rewrite Hall.
Qed.

Lemma invariant_settle (sel : list User.t) (b : Batch) (i : nat)
    (outcome : Settlement) :
  invariant sel b -> invariant sel (settle i outcome b).
Proof.
  intros Hinv. unfold settle.
  destruct (slots b !! i) as [[s|]|] eqn:Hi; try done.
  pose proof Hinv as [Hsel Hlen Hslots Hreq Hphase].
  unfold phaseInvariant in Hphase.
  assert (Hcatch : exists value, catchErr outcome = Fulfilled value).
  { destruct outcome; simpl; eauto. }
  destruct Hcatch as [value ->].
  destruct (phase b) eqn:Hph; try done.
  destruct Hphase as (_ & Hshown & Href).
  unfold promiseAllCheck. simpl.
  destruct (allFulfilled (<[i:=Some (Fulfilled value)]> (slots b))) eqn:Hall.
  - split; simpl.
    + done.
    + by rewrite length_insert.
    + by apply Forall_insert.
    + rewrite requests_app, Hreq. apply app_nil_r.
    + unfold phaseInvariant. simpl. rewrite Hall, Hsel. repeat split.
      * by rewrite shown_app, Hshown.
      * by rewrite refreshes_app, Href.
  - split; simpl.
    + done.
    + by rewrite length_insert.
    + by apply Forall_insert.
    + done.
    + unfold phaseInvariant. simpl. by rewrite Hall.
Qed.

Lemma invariant_step (sel : list User.t) (b : Batch) (e : Event) :
  invariant sel b -> invariant sel (step b e).
Proof.
  intros Hinv. destruct e as [answer|i outcome| |]; simpl.
  - pose proof Hinv as [Hsel Hlen Hslots Hreq Hphase].
    unfold phaseInvariant in Hphase.
    destruct answer, (phase b) eqn:Hph; done.
  - by apply invariant_settle.
  - destruct (phase b) eqn:Hph; try done.
    destruct Hinv as [Hsel Hlen Hslots Hreq Hphase].
    unfold phaseInvariant in Hphase. rewrite Hph in Hphase.
    destruct Hphase as (Hall & Hmsg & Hshown & Href).
    split; simpl; try done.
    + rewrite requests_app, Hreq. apply app_nil_r.
    + unfold phaseInvariant. simpl. repeat split; try done.
      * by rewrite shown_app, Hshown.
      * by rewrite refreshes_app, Href.
  - destruct (phase b) eqn:Hph; try done.
    destruct Hinv as [Hsel Hlen Hslots Hreq Hphase].
    unfold phaseInvariant in Hphase. rewrite Hph in Hphase.
    destruct Hphase as (Hall & Hmsg & Hshown & Href).
    split; simpl; try done.
    + rewrite requests_app, Hreq. apply app_nil_r.
    + unfold phaseInvariant. simpl. repeat split; try done.
      * rewrite shown_app, Hshown. simpl. by rewrite Hmsg.
      * by rewrite refreshes_app, Href.
Qed.

Lemma invariant_run (sel : list User.t) (events : list Event) (b : Batch) :
  invariant sel b -> invariant sel (run b events).
Proof.
  revert b. induction events as [|e events IH]; intros b Hinv; simpl; [done|].
  apply IH. by apply invariant_step.
Qed.

Lemma invariant_reachable (st : UserView.State) (events : list Event) :
  invariant (UserView.getSelectedUsers st)
            (run (confirmed (removeUsers st)) events).
Proof. apply invariant_run, invariant_confirmed. Qed.

(** While a slot is pending, the outcome of its request is recorded as a
    fulfilment whatever it is, and the other slots are left alone. *)
Lemma settle_pending_slot (sel : list User.t) (b : Batch) (i : nat)
    (outcome : Settlement) :
  invariant sel b ->
  slots b !! i = Some None ->
  slots (step b (Settle i outcome))
  = <[i := Some (Fulfilled (collected outcome))]> (slots b).
Proof.
  intros [Hsel Hlen Hslots Hreq Hphase] Hi. simpl. unfold settle. rewrite Hi.
  unfold phaseInvariant in Hphase.
  pose proof (allFulfilled_pending _ _ Hi) as Hpending.
  destruct (phase b) eqn:Hph; try done.
  - destruct outcome; simpl; unfold promiseAllCheck; simpl;
      destruct (allFulfilled (<[i:=_]> (slots b))); reflexivity.
  - destruct Hphase as (Hall & _). congruence.
  - destruct Hphase as (Hall & _). congruence.
  - destruct Hphase as (Hall & _). congruence.
Qed.

Lemma refreshed_absorbs (b : Batch) (e : Event) :
  phase b = Refreshed -> step b e = b.
Proof.
  intros Hph. destruct e as [[]|i outcome| |]; simpl; rewrite ?Hph; try done.
  unfold settle. rewrite Hph.
  by destruct (slots b !! i) as [[s|]|].
Qed.

Lemma refreshed_absorbs_run (events : list Event) (b : Batch) :
  phase b = Refreshed -> run b events = b.
Proof.
  induction events as [|e events IH]; intros Hph; simpl; [done|].
  rewrite refreshed_absorbs by done. by apply IH.
Qed.

Lemma summarised_then_dismissed (b : Batch) (events : list Event) :
  summarised b ->
  phase (run b (TimerFired :: Dismiss :: events)) = Refreshed.
Proof.
  unfold summarised. intros Hsum. simpl.
  destruct (phase b) eqn:Hph; try done; simpl; rewrite ?Hph; simpl;
    rewrite ?Hph; by rewrite refreshed_absorbs_run.
Qed.

Lemma string_app_nil_r (s : string) : (s +:+ "") = s.
Proof.
  induction s as [|c s IH]; [reflexivity|].
  change (String c (s +:+ "") = String c s). by rewrite IH.
Qed.

Lemma string_app_assoc (s1 s2 s3 : string) :
  ((s1 +:+ s2) +:+ s3) = (s1 +:+ (s2 +:+ s3)).
Proof.
  induction s1 as [|c s1 IH]; [reflexivity|].
  change (String c ((s1 +:+ s2) +:+ s3) = String c (s1 +:+ (s2 +:+ s3))).
  by rewrite IH.
Qed.

Lemma string_concat_cons (s : string) (ss : list string) :
  String.concat "" (s :: ss) = (s +:+ String.concat "" ss).
Proof.
  destruct ss as [|s' ss]; [|reflexivity].
  change (s = (s +:+ "")). by rewrite string_app_nil_r.
Qed.

Lemma summary_lines (errors : list JsValue) (head : string) :
  foldl (fun message error => (message +:+ newline +:+ toString error))
        head errors
  = (head +:+ String.concat ""
               (map (fun error => newline +:+ toString error) errors)).
Proof.
  revert head. induction errors as [|e errors IH]; intros head.
  - simpl. by rewrite string_app_nil_r.
  - change (foldl _ head (e :: errors))
      with (foldl (fun message error => (message +:+ newline +:+ toString error))
                  (head +:+ newline +:+ toString e) errors).
    rewrite IH. change (map _ (e :: errors))
      with ((newline +:+ toString e)
            :: map (fun error => (newline +:+ toString error)) errors).
    by rewrite string_concat_cons, !string_app_assoc.
Qed.

(** The text [summary] builds, written out. *)
Lemma summary_text (sel : list User.t) (rs : list JsValue) :
  summary sel rs
  = ("Remove " +:+ (if Nat.eqb (length sel) 1 then "user" else "users") +:+ " "
     +:+ (if Nat.eqb (length (List.filter instanceofError rs)) 0
         then "successfully."
         else "with "
              +:+ numberToString (length (List.filter instanceofError rs))
              +:+ " failed."
              +:+ String.concat ""
                   (map (fun error => newline +:+ toString error)
                        (List.filter instanceofError rs)))).
Proof.
  unfold summary.
  destruct (Nat.eqb (length (List.filter instanceofError rs)) 0).
  - by rewrite !string_app_assoc.
  - rewrite summary_lines. by rewrite !string_app_assoc.
Qed.

Lemma conventional_errors (outcomes : list Settlement) :
  Forall (fun o => conventional o = true) outcomes ->
  List.filter instanceofError (map collected outcomes) = failures outcomes.
Proof.
  induction 1 as [|[value|reason] outcomes Hconv _ IH]; simpl in *; [done| |].
  - apply negb_true_iff in Hconv. by rewrite Hconv.
  - rewrite Hconv. unfold failures in *. simpl. by rewrite IH.
Qed.

Lemma no_error_no_failure (outcomes : list Settlement) :
  Forall (fun o => instanceofError (collected o) = false) outcomes ->
  List.filter instanceofError (map collected outcomes) = [].
Proof.
  induction 1 as [|o outcomes Ho _ IH]; simpl; [done|]. by rewrite Ho.
Qed.

End batch_facts.

Section batch_summary.
Import BatchRemove.

(** Once every slot holds the outcome of its request, the summary exists
    and its text is determined by the results that are [Error] instances. *)
Lemma removal_summary_lemma (st : UserView.State) (events : list Event)
    (outcomes : list Settlement) :
  slots (run (confirmed (removeUsers st)) events)
  = map (fun o => Some (catchErr o)) outcomes ->
  summarised (run (confirmed (removeUsers st)) events)
  /\ (forall text,
        phase (run (confirmed (removeUsers st)) events) = TimerPending text
        \/ phase (run (confirmed (removeUsers st)) events) = ShowingSummary text ->
        text
        = ("Remove "
           +:+ (if Nat.eqb (length (UserView.getSelectedUsers st)) 1
               then "user" else "users") +:+ " "
           +:+ (if Nat.eqb (length (List.filter instanceofError (map collected outcomes))) 0
               then "successfully."
               else "with "
                    +:+ numberToString
                         (length (List.filter instanceofError (map collected outcomes)))
                    +:+ " failed."
                    +:+ String.concat ""
                         (map (fun error => newline +:+ toString error)
                              (List.filter instanceofError (map collected outcomes)))))).
Proof.
  intros Hsettled.
  pose proof (invariant_reachable st events) as [Hsel Hlen Hslots Hreq Hphase].
  unfold phaseInvariant in Hphase.
  assert (Hall : allFulfilled (slots (run (confirmed (removeUsers st)) events)) = true).
  { rewrite Hsettled. apply allFulfilled_settled. }
  split.
  - unfold summarised. destruct (phase _); try done.
    destruct Hphase as [Hpending _]. congruence.
  - intros text [Hph|Hph]; rewrite Hph in Hphase;
      destruct Hphase as (_ & -> & _);
      rewrite Hsettled, results_settled; apply summary_text.
Qed.

Lemma catchErr_collected (outcome : Settlement) :
  catchErr outcome = Fulfilled (collected outcome).
Proof. by destruct outcome. Qed.

(** Every list of outcomes for the requests can happen: when they settle in
    the order they were issued, the slots fill from the left. *)
Lemma settleInOrder_slots (st : UserView.State) (settled rest : list Settlement) :
  length (settled ++ rest) = length (UserView.getSelectedUsers st) ->
  slots (run (confirmed (removeUsers st)) (settleInOrder settled))
  = map (fun o => Some (catchErr o)) settled ++ replicate (length rest) None.
Proof.
  revert rest. induction settled as [|o settled IH] using rev_ind; intros rest Hlen.
  - simpl in *. rewrite Hlen. unfold confirmed, promiseAllCheck. simpl.
    by destruct (allFulfilled _).
  - unfold settleInOrder, run in *. rewrite imap_app, foldl_app. simpl.
    rewrite Nat.add_0_r.
    specialize (IH (o :: rest)).
    rewrite <- app_assoc in Hlen. specialize (IH Hlen). simpl in IH.
    pose proof (invariant_reachable st (imap Settle settled)) as Hinv.
    unfold run in Hinv.
    assert (Hpending :
      slots (foldl step (confirmed (removeUsers st)) (imap Settle settled))
        !! length settled = Some None).
    { rewrite IH, lookup_app_r by (rewrite length_map; lia).
      by rewrite length_map, Nat.sub_diag. }
    change (settle (length settled) o ?b) with (step b (Settle (length settled) o)).
    rewrite (settle_pending_slot _ _ _ o Hinv Hpending), IH.
    rewrite insert_app_r_alt by (rewrite length_map; lia).
    rewrite length_map, Nat.sub_diag. simpl.
    rewrite map_app, <- app_assoc. simpl. by rewrite catchErr_collected.
Qed.

(** So the summary is always reached: for any outcomes of the requests,
    one per selected user, there is a run in which they all settle, and in it
    the summary has been produced. *)
Lemma removeUsers_completes (st : UserView.State) (outcomes : list Settlement) :
  length outcomes = length (UserView.getSelectedUsers st) ->
  slots (run (confirmed (removeUsers st)) (settleInOrder outcomes))
  = map (fun o => Some (catchErr o)) outcomes
  /\ summarised (run (confirmed (removeUsers st)) (settleInOrder outcomes)).
Proof.
  intros Hlen.
  assert (Hslots :
    slots (run (confirmed (removeUsers st)) (settleInOrder outcomes))
    = map (fun o => Some (catchErr o)) outcomes).
  { rewrite (settleInOrder_slots st outcomes []); [|by rewrite app_nil_r].
    simpl. by rewrite app_nil_r. }
  split; [exact Hslots|].
  by destruct (removal_summary_lemma st _ _ Hslots).
Qed.

End batch_summary.

Section batch_claims.
Import BatchRemove.

(** C2.  For every resolved selection of [n] users, accepting the
    confirmation issues one remove request per user, in order, each before
    any outcome is known (every slot is still pending); no later event issues
    another.  Whatever a request settles with, its slot records a fulfilment
    and the other slots stay as they were, and [Promise.all] is never
    rejected; and the summary has been produced exactly when all [n] slots
    hold an outcome, from results that hold all [n] of them. *)
Theorem removeUsers_fans_out_and_in (st : UserView.State) (events : list Event) :
  let sel := UserView.getSelectedUsers st in
  let b0 := confirmed (removeUsers st) in
  let b := run b0 events in
  (requests (effects b0) = map User.username sel
   /\ slots b0 = replicate (length sel) None)
  /\ requests (effects b) = map User.username sel
  /\ (forall reason, phase b <> AllRejected reason)
  /\ (forall i outcome,
        slots b !! i = Some None ->
        slots (step b (Settle i outcome))
        = <[i := Some (Fulfilled (collected outcome))]> (slots b))
  /\ (summarised b <->
      forall i, i < length sel ->
                exists value, slots b !! i = Some (Some (Fulfilled value)))
  /\ (summarised b -> length (results (slots b)) = length sel)
  /\ (forall message,
        phase b = TimerPending message \/ phase b = ShowingSummary message ->
        message = summary sel (results (slots b))).
Proof.
  intros sel b0 b.
  pose proof (invariant_confirmed st) as Hinv0.
  pose proof (invariant_reachable st events) as Hinv.
  fold sel in Hinv0, Hinv. fold b0 in Hinv0. fold b0 b in Hinv.
  split; [split|].
  { apply Hinv0. }
  { subst b0. unfold confirmed, promiseAllCheck. simpl.
    by destruct (allFulfilled _). }
  split; [apply Hinv|].
  pose proof Hinv as [Hsel Hlen Hslots Hreq Hphase].
  unfold phaseInvariant in Hphase.
  split.
  { intros reason Hph. by rewrite Hph in Hphase. }
  split.
  { intros i outcome Hi. by eapply settle_pending_slot. }
  assert (Hsum : summarised b <-> allFulfilled (slots b) = true).
  { unfold summarised. destruct (phase b); try done;
      try (split; [intros _; apply Hphase | done]).
    split; [done|]. destruct Hphase as [Hall _]. congruence. }
  split.
  { rewrite Hsum, allFulfilled_lookup, Hlen. done. }
  split.
  { rewrite Hsum. intros Hall.
    by rewrite allFulfilled_results_length, Hlen. }
  intros message [Hph|Hph]; rewrite Hph in Hphase; apply Hphase.
Qed.

(** C3 (as amended).  Once all remove requests have settled, the summary
    is ["Remove {user|users} successfully."] when none of the collected
    results is an [Error] instance, and otherwise
    ["Remove {user|users} with N failed."] followed by a newline and the text
    of each such result, [N] being their number (singular "user" iff exactly
    one user was selected); for requests that reject with an [Error] and
    fulfil with anything else, these are the failed requests.  The summary is
    the only message shown, and once it has been dismissed the user list has
    been refreshed exactly once, whatever the outcomes were. *)
Theorem removal_summary_and_refresh (st : UserView.State) (events : list Event)
    (outcomes : list Settlement) :
  let sel := UserView.getSelectedUsers st in
  let b := run (confirmed (removeUsers st)) events in
  let errors := List.filter instanceofError (map collected outcomes) in
  let message :=
    ("Remove " +:+ (if Nat.eqb (length sel) 1 then "user" else "users") +:+ " "
     +:+ (if Nat.eqb (length errors) 0 then "successfully."
         else "with " +:+ numberToString (length errors) +:+ " failed."
              +:+ String.concat ""
                   (map (fun error => newline +:+ toString error) errors))) in
  slots b = map (fun o => Some (catchErr o)) outcomes ->
  summarised b
  /\ (forall text,
        phase b = TimerPending text \/ phase b = ShowingSummary text
        \/ ShowMessageBox text ∈ effects b ->
        text = message)
  /\ refreshes (effects b) <= 1
  /\ (forall later,
        let b' := run b (TimerFired :: Dismiss :: later) in
        shown (effects b') = [message] /\ refreshes (effects b') = 1)
  /\ (Forall (fun o => conventional o = true) outcomes ->
      message = summaryAsSpecified sel outcomes).
Proof.
  intros sel b errors message Hsettled.
  pose proof (invariant_reachable st events) as Hinv. fold sel b in Hinv.
  assert (Hmsg : summary sel (results (slots b)) = message).
  { rewrite Hsettled, results_settled. apply summary_text. }
  assert (Hall : allFulfilled (slots b) = true).
  { rewrite Hsettled. apply allFulfilled_settled. }
  pose proof Hinv as [Hsel Hlen Hslots Hreq Hphase].
  unfold phaseInvariant in Hphase.
  assert (Hsum : summarised b).
  { unfold summarised. destruct (phase b); try done.
    destruct Hphase as [Hpending _]. congruence. }
  split; [exact Hsum|].
  split.
  { intros text Htext.
    assert (Hshown : forall es, ShowMessageBox text ∈ es -> text ∈ shown es).
    { intros es Hin. unfold shown. apply list_elem_of_omap.
      by exists (ShowMessageBox text). }
    destruct (phase b) eqn:Hph; try done.
    - destruct Hphase as [Hpending _]. congruence.
    - destruct Hphase as (_ & Hm & Hnone & _).
      destruct Htext as [Ht|[Ht|Ht]];
        [injection Ht as <-; congruence | discriminate |].
      apply Hshown in Ht. rewrite Hnone in Ht. by apply elem_of_nil in Ht.
    - destruct Hphase as (_ & Hm & Hone & _).
      destruct Htext as [Ht|[Ht|Ht]];
        [discriminate | injection Ht as <-; congruence |].
      apply Hshown in Ht. rewrite Hone in Ht.
      apply list_elem_of_singleton in Ht. congruence.
    - destruct Hphase as (_ & Hone & _).
      destruct Htext as [Ht|[Ht|Ht]]; [discriminate | discriminate |].
      apply Hshown in Ht. rewrite Hone in Ht.
      apply list_elem_of_singleton in Ht. congruence. }
  split.
  { destruct (phase b); try done; destruct Hphase as (? & ?); try lia.
    all: destruct_and?; lia. }
  split.
  { intros later b'.
    pose proof (summarised_then_dismissed b later Hsum) as Hph'. fold b' in Hph'.
    pose proof (invariant_run sel (TimerFired :: Dismiss :: later) b Hinv) as Hinv'.
    fold b' in Hinv'. destruct Hinv' as [_ _ _ _ Hphase'].
    unfold phaseInvariant in Hphase'. rewrite Hph' in Hphase'.
    destruct Hphase' as (_ & Hone & Href). split; [|exact Href].
    rewrite Hone. f_equal. rewrite <- Hmsg. f_equal. f_equal.
    subst b'. clear -Hinv Hsum.
    assert (Hstable : forall evs c, invariant sel c -> summarised c ->
                        slots (run c evs) = slots c).
    { induction evs as [|e evs IH]; intros c Hc Hs; simpl; [done|].
      assert (Hstep : slots (step c e) = slots c /\ summarised (step c e)).
      { unfold summarised in *. destruct Hc as [_ _ _ _ Hp].
        unfold phaseInvariant in Hp.
        destruct e as [[]|i outcome| |]; simpl;
          destruct (phase c) eqn:Hpc; try done; simpl; rewrite ?Hpc; try done.
        all: unfold settle; rewrite Hpc;
          by destruct (slots c !! i) as [[s|]|]; simpl; rewrite ?Hpc. }
      destruct Hstep as [Hslots' Hsum'].
      rewrite IH; [done| by apply invariant_step | done]. }
    by apply Hstable. }
  intros Hconv. subst message errors.
  unfold summaryAsSpecified. by rewrite conventional_errors.
Qed.

(** C9.  A remove request that rejects with a value that is not an
    [Error] instance is counted as a success: with such a request among the
    settled ones, the failure count and the appended messages of the summary
    are those of the other requests alone, so that the summary reads
    "successfully." when no other result is an [Error]. *)
Theorem non_error_rejection_counts_as_success (st : UserView.State)
    (events : list Event) (before after : list Settlement) (reason : JsValue) :
  let sel := UserView.getSelectedUsers st in
  let b := run (confirmed (removeUsers st)) events in
  let others := List.filter instanceofError (map collected (before ++ after)) in
  let noun := if Nat.eqb (length sel) 1 then "user" else "users" in
  instanceofError reason = false ->
  slots b = map (fun o => Some (catchErr o)) (before ++ Rejected reason :: after) ->
  summarised b
  /\ (forall text,
        phase b = TimerPending text \/ phase b = ShowingSummary text ->
        text
        = ("Remove " +:+ noun +:+ " "
           +:+ (if Nat.eqb (length others) 0 then "successfully."
               else "with " +:+ numberToString (length others) +:+ " failed."
                    +:+ String.concat ""
                         (map (fun error => newline +:+ toString error) others)))
        /\ (others = [] -> text = ("Remove " +:+ noun +:+ " successfully."))).
Proof.
  intros sel b others noun Hreason Hsettled.
  pose proof (removal_summary_lemma st events _ Hsettled) as [Hsum Htext].
  fold sel b in Hsum, Htext.
  split; [exact Hsum|].
  intros text Hph.
  assert (Hothers :
    List.filter instanceofError (map collected (before ++ Rejected reason :: after))
    = others).
  { subst others. rewrite !map_app, !List.filter_app. simpl. by rewrite Hreason. }
  rewrite Hothers in Htext.
  split; [by apply Htext|].
  intros Hnone. rewrite (Htext text Hph), Hnone. done.
Qed.

End batch_claims.

Section batch_witnesses.
Import BatchRemove Sample.

Lemma removeUsers_fans_out_and_in_witness :
  slots (run (confirmed (removeUsers threeTickedState))
             [Settle 1 (Rejected notFound); Settle 0 (Fulfilled removed)])
  = [Some (Fulfilled removed); Some (Fulfilled notFound); None]
  /\ ~ summarised (run (confirmed (removeUsers threeTickedState))
                       [Settle 1 (Rejected notFound)]).
Proof.
  split.
  - pose proof (removeUsers_fans_out_and_in threeTickedState
                  [Settle 1 (Rejected notFound)])
      as (_ & _ & _ & Hslot & _).
    simpl in Hslot.
    exact (Hslot 0 (Fulfilled removed) eq_refl).
  - pose proof (removeUsers_fans_out_and_in threeTickedState
                  [Settle 1 (Rejected notFound)])
      as (_ & _ & _ & _ & Hsum & _).
    intros Hs. destruct (proj1 Hsum Hs 0) as [value Hv].
    + vm_compute. lia.
    + vm_compute in Hv. discriminate Hv.
Defined.

(** The claim of the summary in the words of the specification fails when
    a request rejects with a value that is not an [Error]: one request out of
    one has failed and the summary reads "successfully.". *)
Lemma removal_summary_counterexample :
  slots (run (confirmed (removeUsers oneTickedState))
             [Settle 0 (Rejected timeoutText)])
  = map (fun o => Some (catchErr o)) [Rejected timeoutText]
  /\ phase (run (confirmed (removeUsers oneTickedState))
                [Settle 0 (Rejected timeoutText)])
     = TimerPending "Remove user successfully."
  /\ summaryAsSpecified (UserView.getSelectedUsers oneTickedState)
                        [Rejected timeoutText]
     = ("Remove user with 1 failed." +:+ newline +:+ "timeout")
  /\ phase (run (confirmed (removeUsers oneTickedState))
                [Settle 0 (Rejected timeoutText)])
     <> TimerPending
          (summaryAsSpecified (UserView.getSelectedUsers oneTickedState)
                              [Rejected timeoutText]).
Proof. repeat split; try (vm_compute; reflexivity). vm_compute. discriminate. Qed.

Lemma removal_summary_and_refresh_witness :
  shown (effects
           (run (run (confirmed (removeUsers threeTickedState))
                     [Settle 0 (Fulfilled removed); Settle 2 (Fulfilled removed);
                      Settle 1 (Rejected notFound)])
                [TimerFired; Dismiss]))
  = [("Remove users with 1 failed." +:+ newline +:+ "Error: User not found")]
  /\ refreshes
       (effects
          (run (run (confirmed (removeUsers threeTickedState))
                    [Settle 0 (Fulfilled removed); Settle 2 (Fulfilled removed);
                     Settle 1 (Rejected notFound)])
               [TimerFired; Dismiss])) = 1.
Proof.
  pose proof (removal_summary_and_refresh threeTickedState
                [Settle 0 (Fulfilled removed); Settle 2 (Fulfilled removed);
                 Settle 1 (Rejected notFound)]
                [Fulfilled removed; Rejected notFound; Fulfilled removed]
                eq_refl)
    as (_ & _ & _ & Hlater & _).
  exact (Hlater []).
Defined.

Lemma non_error_rejection_counts_as_success_witness :
  phase (run (confirmed (removeUsers oneTickedState))
             [Settle 0 (Rejected timeoutText)])
  = TimerPending "Remove user successfully.".
Proof.
  pose proof (non_error_rejection_counts_as_success oneTickedState
                [Settle 0 (Rejected timeoutText)] [] [] timeoutText
                eq_refl eq_refl)
    as [_ Htext].
  destruct (Htext "Remove user successfully.") as [_ Hok].
  - left. reflexivity.
  - reflexivity.
Defined.

End batch_witnesses.

(** ** Directory group lookup *)

Section lookup_facts.
Import GroupLookup.

Context {World Err : Type}.
Variable axiosGet : Request -> World -> (Err + ResponseData) * World.

Lemma pushNames_spec (groupList : list Json) (dataBlock : list GroupItem) :
  pushNames groupList dataBlock = groupList ++ namesOf (mkData dataBlock None).
Proof.
  unfold pushNames, namesOf. simpl. revert groupList.
  induction dataBlock as [|[name] dataBlock IH]; intros groupList; simpl.
  - by rewrite app_nil_r.
  - rewrite IH. destruct name as [name|]; simpl; [|done].
    destruct (truthy name); simpl; [|done]. by rewrite <- app_assoc.
Qed.

Lemma namesOf_value (data : ResponseData) :
  namesOf (mkData (value data) None) = namesOf data.
Proof. done. Qed.

Lemma collectGroups_from (pages : list ResponseData)
    (groupList : list Json) (log : list Effect) :
  foldl (fun '(groupList, log) dataBlock =>
           (pushNames groupList dataBlock, log ++ [ConsoleLog dataBlock]))
        (groupList, log) (map value pages)
  = (groupList ++ concat (map namesOf pages),
     log ++ map ConsoleLog (map value pages)).
Proof.
  revert groupList log.
  induction pages as [|data pages IH]; intros groupList log; simpl.
  - by rewrite !app_nil_r.
  - rewrite IH, pushNames_spec, namesOf_value. by rewrite <- !app_assoc.
Qed.

Lemma collectGroups_spec (pages : list ResponseData) :
  collectGroups (map value pages)
  = (concat (map namesOf pages), map ConsoleLog (map value pages)).
Proof. unfold collectGroups. by rewrite collectGroups_from. Qed.

Lemma fetchLoop_answers (config : Config) (w : World) (u : string)
    (pages : list ResponseData) (w' : World) :
  answers World Err axiosGet config w u pages w' ->
  forall fuel responseData log,
    length pages <= fuel ->
    fetchLoop World Err axiosGet fuel config u responseData log w
    = (Returned (responseData ++ map value pages),
       log ++ map AxiosGet (map (requestFor config) (u :: omap nextLink pages)),
       w').
Proof.
  induction 1 as [w u data w' Hget Hlast
                 |w u data next w' pages w'' Hget Hnext _ IH];
    intros [|fuel] responseData log Hfuel; simpl in Hfuel; try lia; simpl.
  - by rewrite Hget, Hlast.
  - rewrite Hget, Hnext. rewrite IH by lia.
    by rewrite <- !app_assoc.
Qed.

Lemma fetchLoop_failing (config : Config) (w : World) (u : string)
    (pages : list ResponseData) (error : Err) (w' : World) :
  failing World Err axiosGet config w u pages error w' ->
  forall fuel responseData log,
    length pages < fuel ->
    fetchLoop World Err axiosGet fuel config u responseData log w
    = (Thrown error,
       log ++ map AxiosGet (map (requestFor config) (u :: omap nextLink pages)),
       w').
Proof.
  induction 1 as [w u error w' Hget
                 |w u data next w' pages error w'' Hget Hnext _ IH];
    intros [|fuel] responseData log Hfuel; simpl in Hfuel; try lia; simpl.
  - by rewrite Hget.
  - rewrite Hget, Hnext. rewrite IH by lia.
    by rewrite <- !app_assoc.
Qed.

Lemma requested_app (log1 log2 : list Effect) :
  requested (log1 ++ log2) = requested log1 ++ requested log2.
Proof. apply omap_app. Qed.

Lemma requested_axiosGet (requests : list Request) :
  requested (map AxiosGet requests) = requests.
Proof.
  induction requests as [|r requests IH]; [done|].
  change (r :: requested (map AxiosGet requests) = r :: requests).
  by rewrite IH.
Qed.

Lemma requested_consoleLog (blocks : list (list GroupItem)) :
  requested (map ConsoleLog blocks) = [].
Proof. induction blocks as [|b blocks IH]; [done|]. exact IH. Qed.

Lemma requested_gets (requests : list Request) (blocks : list (list GroupItem)) :
  requested (map AxiosGet requests ++ map ConsoleLog blocks) = requests.
Proof.
  by rewrite requested_app, requested_axiosGet, requested_consoleLog, app_nil_r.
Qed.

(** C5.  For every username and configuration: when the directory answers
    the configured memberOf URL and then each [@odata.nextLink] in turn with
    [pages], the last of which has no link, the lookup (given at least as
    many iterations as there are pages) returns the concatenation, in fetch
    order, of the display names of all records, leaving out those whose
    [displayName] is absent or falsy.  Its requests are the configured URL
    followed by the link of each page, one after the other, and all of them
    precede the reading of the records. *)
Theorem getUserGroupList_follows_links (username : string) (config : Config)
    (w : World) (pages : list ResponseData) (w' : World) (fuel : nat) :
  answers World Err axiosGet config w (msGraphAPI config) pages w' ->
  length pages <= fuel ->
  getUserGroupList World Err axiosGet fuel username config w
  = (Returned (concat (map namesOf pages)),
     map AxiosGet (requestsFor config pages)
       ++ map ConsoleLog (map value pages),
     w')
  /\ requested (map AxiosGet (requestsFor config pages)
                  ++ map ConsoleLog (map value pages))
     = map (requestFor config) (msGraphAPI config :: omap nextLink pages)
  /\ (forall name, name ∈ concat (map namesOf pages) <->
        truthy name = true
        /\ exists data, data ∈ pages /\ mkItem (Some name) ∈ value data).
Proof.
  intros Hanswers Hfuel. split; [|split].
  - unfold getUserGroupList.
    rewrite (fetchLoop_answers config w _ pages w' Hanswers) by done.
    simpl. by rewrite collectGroups_spec.
  - apply requested_gets.
  - intros name. rewrite list_elem_of_In, in_concat. split.
    + intros (names & Hnames & Hname).
      apply list_elem_of_In in Hnames, Hname.
      apply list_elem_of_fmap in Hnames as (data & -> & Hdata).
      unfold namesOf in Hname. apply list_elem_of_omap in Hname as ([dn] & Hitem & Hsome).
      simpl in Hsome. destruct dn as [name'|]; [|done].
      destruct (truthy name') eqn:Htruthy; [|done].
      simplify_eq. split; [done|]. by exists data.
    + intros (Htruthy & data & Hdata & Hitem).
      exists (namesOf data). rewrite <- !list_elem_of_In. split.
      * apply list_elem_of_fmap. by exists data.
      * unfold namesOf. apply list_elem_of_omap.
        exists (mkItem (Some name)). split; [done|]. simpl. by rewrite Htruthy.
Qed.

(** C6.  If a page fetch of the lookup fails, after [pages] were fetched
    by following their links, the lookup ends by throwing the very value the
    fetch failed with; the failing request is the last one it issues (no
    retry and no further page), the world is the one that request left, and
    no record is read. *)
Theorem getUserGroupList_propagates_failure (username : string)
    (config : Config) (w : World) (pages : list ResponseData) (error : Err)
    (w' : World) (fuel : nat) :
  failing World Err axiosGet config w (msGraphAPI config) pages error w' ->
  length pages < fuel ->
  getUserGroupList World Err axiosGet fuel username config w
  = (Thrown error, map AxiosGet (requestsFor config pages), w')
  /\ length (requestsFor config pages) = S (length pages).
Proof.
  intros Hfailing Hfuel. split.
  - unfold getUserGroupList.
    by rewrite (fetchLoop_failing config w _ pages error w' Hfailing).
  - unfold requestsFor. rewrite length_map. simpl. f_equal.
    clear Hfuel. remember (msGraphAPI config) as u eqn:Hu. clear Hu.
    induction Hfailing as [|w u data next w' pages error w'' Hget Hnext _ IH];
      simpl; [done|]. rewrite Hnext. simpl. f_equal. exact IH.
Qed.

End lookup_facts.

Section lookup_witnesses.
Import GroupLookup Sample.

Lemma getUserGroupList_follows_links_witness :
  getUserGroupList nat string directory 5 "alice" graphConfig 0
  = (Returned [JString "admins"; JString "users"],
     map AxiosGet (requestsFor graphConfig [firstPage; secondPage])
       ++ map ConsoleLog (map value [firstPage; secondPage]),
     2).
Proof.
  refine (proj1 (getUserGroupList_follows_links directory "alice" graphConfig 0
                   [firstPage; secondPage] 2 5 _ _)).
  - eapply answers_next; [reflexivity | reflexivity |].
    eapply answers_last; reflexivity.
  - simpl. lia.
Defined.

Lemma getUserGroupList_propagates_failure_witness :
  getUserGroupList nat string droppingDirectory 5 "alice" graphConfig 0
  = (Thrown "ECONNRESET",
     map AxiosGet (requestsFor graphConfig [firstPage]),
     2).
Proof.
  refine (proj1 (getUserGroupList_propagates_failure droppingDirectory "alice"
                   graphConfig 0 [firstPage] "ECONNRESET" 2 5 _ _)).
  - eapply failing_next; [reflexivity | reflexivity |].
    eapply failing_here; reflexivity.
  - simpl. lia.
Defined.

End lookup_witnesses.

(** ** The message box *)

Section message_box.
Import MessageBox.
Context {V : Type}.

Lemma callResolve_other (p q : nat) (value : V) (ps : list (option V)) :
  q <> p -> callResolve p value ps !! q = ps !! q.
Proof.
  intros Hne. unfold callResolve.
  destruct (ps !! p) as [[v|]|]; try done.
  by apply list_lookup_insert_ne.
Qed.

Lemma rendered_text (st : State V) :
  rendered st = true <-> text (messageBox st) <> "".
Proof.
  unfold rendered. rewrite negb_true_iff. apply String.eqb_neq.
Qed.

Lemma orphaned_step (p : nat) (st : State V) (e : Event V) :
  orphaned p st -> orphaned p (step st e).
Proof.
  intros [Hpending Hbox]. pose proof (lookup_lt_Some _ _ _ Hpending) as Hlt.
  destruct e as [t|t|value]; simpl.
  - split; simpl; [by rewrite lookup_app_l | intros [= <-]; lia].
  - split; simpl; [by rewrite lookup_app_l | intros [= <-]; lia].
  - destruct (rendered st) eqn:Hr; [|done].
    apply rendered_text in Hr. split; simpl; [|done].
    destruct (resolve (messageBox st)) as [q|]; [|done].
    rewrite callResolve_other; [done|]. intros ->. by apply Hr, Hbox.
Qed.

Lemma orphaned_run (p : nat) (events : list (Event V)) (st : State V) :
  orphaned p st -> orphaned p (run st events).
Proof.
  revert st. induction events as [|e events IH]; intros st Ho; simpl; [done|].
  by apply IH, orphaned_step.
Qed.

(** Asking for a box and dismissing it resolves the promise of that call
    with the value of the dismissal, closes the box and forgets the resolver;
    every other promise is left as it was.  The confirm button is there
    exactly for [showMessageBoxWithConfirm]. *)
Theorem show_then_dismiss (e : Event V) (value : V) (st : State V) :
  isShow e = true ->
  shownText e <> "" ->
  let p := length (promises st) in
  let st' := run st [e; Dismissed value] in
  text (messageBox (step st e)) = shownText e
  /\ confirm (messageBox (step st e))
     = match e with ShowWithConfirm _ => Some true | _ => None end
  /\ promises st' !! p = Some (Some value)
  /\ (forall q, q <> p -> promises st' !! q = promises st !! q)
  /\ messageBox st' = mkBox "" None None.
Proof.
  intros Hshow Htext p st'. subst st'.
  assert (Hopen : rendered (step st e) = true
                  /\ resolve (messageBox (step st e)) = Some p
                  /\ promises (step st e) = promises st ++ [None]).
  { destruct e as [t|t|v]; try done; simpl in *;
      (split; [by apply rendered_text|done]). }
  destruct Hopen as (Hr & Hres & Hps).
  split; [by destruct e|]. split; [by destruct e|].
  simpl. rewrite Hr. unfold hideMessageBox. rewrite Hres, Hps. simpl.
  assert (Hp : (promises st ++ [None]) !! p = Some (@None V)).
  { subst p. by rewrite lookup_app_r, Nat.sub_diag. }
  split; [|split; [|done]].
  - unfold callResolve. rewrite Hp. apply list_lookup_insert_eq.
    rewrite length_app. simpl. lia.
  - intros q Hq. rewrite callResolve_other by done.
    destruct (decide (q < p)) as [Hlt|Hge].
    + by rewrite lookup_app_l.
    + rewrite (lookup_ge_None_2 (promises st)) by (subst p; lia).
      apply lookup_ge_None_2. rewrite length_app. simpl. subst p. lia.
Qed.

(** A box that is replaced before it is dismissed loses its resolver: the
    promise of the first call stays pending whatever happens afterwards. *)
Theorem superseded_promise_stays_pending (first second : Event V)
    (events : list (Event V)) (st : State V) :
  isShow first = true ->
  isShow second = true ->
  promises (run st (first :: second :: events)) !! length (promises st)
  = Some None.
Proof.
  intros H1 H2. simpl.
  apply (orphaned_run (length (promises st))).
  assert (Hfirst : promises (step st first) = promises st ++ [None]).
  { by destruct first. }
  assert (Hps : promises (step (step st first) second)
                = (promises st ++ [None]) ++ [None]
                /\ resolve (messageBox (step (step st first) second))
                   = Some (S (length (promises st)))).
  { destruct second; try done; simpl; rewrite Hfirst, length_app; simpl;
      (split; [done | f_equal; lia]). }
  destruct Hps as [Hps Hres]. split.
  - rewrite Hps, lookup_app_l by (rewrite length_app; simpl; lia).
    by rewrite lookup_app_r, Nat.sub_diag.
  - rewrite Hres. intros [=]. lia.
Qed.

(** A box asked to show the empty text is not rendered (line 244), so it
    cannot be dismissed: its promise stays pending whatever happens
    afterwards. *)
Theorem empty_text_promise_stays_pending (e : Event V)
    (events : list (Event V)) (st : State V) :
  isShow e = true ->
  shownText e = "" ->
  rendered (step st e) = false
  /\ promises (run st (e :: events)) !! length (promises st) = Some None.
Proof.
  intros Hshow Hempty. split.
  - unfold rendered. destruct e; try done; simpl in *; by rewrite Hempty.
  - simpl. apply (orphaned_run (length (promises st))). split.
    + destruct e; try done; simpl; by rewrite lookup_app_r, Nat.sub_diag.
    + intros _. by destruct e.
Qed.

End message_box.

(** ** Batch removal: schedules, effects and edge cases *)

Section batch_more.
Import BatchRemove.

Lemma step_not_accepted (b : Batch) (e : Event) :
  match e with Confirm true => false | _ => true end = true ->
  (phase b = Confirming \/ phase b = Cancelled) ->
  slots b = [] ->
  (phase (step b e) = Confirming \/ phase (step b e) = Cancelled)
  /\ slots (step b e) = []
  /\ effects (step b e) = effects b.
Proof.
  intros He Hph Hslots.
  destruct e as [[]|i outcome| |]; try done; simpl.
  - destruct Hph as [Hc|Hc]; rewrite Hc; simpl; rewrite ?Hc; auto.
  - unfold settle. rewrite Hslots. simpl. auto.
  - destruct Hph as [Hc|Hc]; rewrite Hc; simpl; rewrite ?Hc; auto.
  - destruct Hph as [Hc|Hc]; rewrite Hc; simpl; rewrite ?Hc; auto.
Qed.

(** Until the confirmation is accepted nothing is done: whatever else
    happens, and in particular when the user declines, the component issues
    no remove request, shows no loading mask and no summary, and refreshes
    nothing. *)
Theorem nothing_happens_unless_confirmed (st : UserView.State)
    (events : list Event) :
  neverAccepted events = true ->
  effects (run (removeUsers st) events) = effects (removeUsers st)
  /\ requests (effects (run (removeUsers st) events)) = []
  /\ refreshes (effects (run (removeUsers st) events)) = 0
  /\ (phase (run (removeUsers st) events) = Confirming
      \/ phase (run (removeUsers st) events) = Cancelled)
  /\ (Confirm false ∈ events -> phase (run (removeUsers st) events) = Cancelled).
Proof.
  intros Hnever.
  assert (Hgen : forall evs b,
    neverAccepted evs = true ->
    (phase b = Confirming \/ phase b = Cancelled) -> slots b = [] ->
    effects (run b evs) = effects b
    /\ (phase (run b evs) = Confirming \/ phase (run b evs) = Cancelled)
    /\ (phase b = Cancelled \/ Confirm false ∈ evs ->
        phase (run b evs) = Cancelled)).
  { induction evs as [|e evs IH]; intros b Hn Hph Hslots; simpl.
    - split; [done|]. split; [done|].
      intros [Hc|Hin]; [done|]. by apply elem_of_nil in Hin.
    - simpl in Hn. apply andb_true_iff in Hn as [He Hn].
      destruct (step_not_accepted b e He Hph Hslots) as (Hph' & Hslots' & Heff).
      destruct (IH (step b e) Hn Hph' Hslots') as (Heff' & Hph'' & Hcancel).
      split; [congruence|]. split; [done|].
      intros Hc. apply Hcancel.
      destruct Hc as [Hc|Hin].
      + left. destruct e as [[]|i outcome| |]; try done; simpl.
        * by rewrite Hc.
        * unfold settle. by rewrite Hslots.
        * by rewrite Hc.
        * by rewrite Hc.
      + apply elem_of_cons in Hin as [<-|Hin]; [|by right].
        left. simpl. destruct Hph as [Hc|Hc]; by rewrite Hc. }
  destruct (Hgen events (removeUsers st) Hnever) as (Heff & Hph & Hcancel);
    [by left | done |].
  rewrite Heff. repeat split; try done.
  intros Hin. apply Hcancel. by right.
Qed.

Lemma settle_not_pending (b : Batch) (j : nat) (outcome : Settlement) :
  slots b !! j <> Some None -> step b (Settle j outcome) = b.
Proof.
  intros Hj. simpl. unfold settle.
  by destruct (slots b !! j) as [[s|]|].
Qed.

Lemma step_other_slots (sel : list User.t) (b : Batch) (e : Event) :
  invariant sel b ->
  match e with Settle _ _ => false | _ => true end = true ->
  slots (step b e) = slots b.
Proof.
  intros [_ _ _ _ Hphase] He. unfold phaseInvariant in Hphase.
  destruct e as [[]|i outcome| |]; try done; simpl;
    by destruct (phase b).
Qed.

Lemma slots_by_first_outcome_from (sel : list User.t) (events : list Event) :
  forall b i,
    invariant sel b ->
    i < length sel ->
    slots (run b events) !! i
    = Some (match slots b !! i with
            | Some (Some s) => Some s
            | _ => catchErr <$> firstOutcome i events
            end).
Proof.
  induction events as [|e events IH]; intros b i Hinv Hi.
  - simpl. destruct Hinv as [_ Hlen _ _ _].
    destruct (lookup_lt_is_Some_2 (slots b) i) as [s Hs]; [lia|].
    rewrite Hs. by destruct s.
  - change (run b (e :: events)) with (run (step b e) events).
    rewrite (IH (step b e) i (invariant_step _ _ _ Hinv) Hi).
    f_equal.
    destruct e as [answer|j outcome| |];
      try (rewrite (step_other_slots sel b _ Hinv) by done; done).
    destruct (slots b !! j) as [[s|]|] eqn:Hj.
    + rewrite settle_not_pending by (rewrite Hj; discriminate).
      simpl. destruct (Nat.eqb_spec i j) as [->|Hne]; [|done].
      by rewrite Hj.
    + rewrite (settle_pending_slot sel b j outcome Hinv Hj).
      rewrite <- catchErr_collected.
      pose proof (lookup_lt_Some _ _ _ Hj) as Hlt.
      simpl. destruct (Nat.eqb_spec i j) as [->|Hne].
      * rewrite list_lookup_insert_eq by done. by rewrite Hj.
      * by rewrite list_lookup_insert_ne.
    + rewrite settle_not_pending by (rewrite Hj; discriminate).
      simpl. destruct (Nat.eqb_spec i j) as [->|Hne]; [|done].
      destruct Hinv as [_ Hlen _ _ _].
      apply lookup_ge_None_1 in Hj. lia.
Qed.

Lemma slots_by_first_outcome_from_confirmed (st : UserView.State)
    (events : list Event) (i : nat) :
  i < length (UserView.getSelectedUsers st) ->
  slots (run (confirmed (removeUsers st)) events) !! i
  = Some (catchErr <$> firstOutcome i events).
Proof.
  intros Hi.
  rewrite (slots_by_first_outcome_from _ events _ i (invariant_confirmed st) Hi).
  assert (Hstart : slots (confirmed (removeUsers st)) !! i = Some None).
  { unfold confirmed, promiseAllCheck. simpl.
    destruct (allFulfilled _); simpl; by apply lookup_replicate_2. }
  by rewrite Hstart.
Qed.

(** Whatever the order in which the requests settle, and whatever else
    happens in between, the result recorded for request [i] is the outcome it
    first settled with (a rejection being recorded as a value), and the slot
    is pending as long as it has not settled. *)
Theorem slots_by_first_outcome (st : UserView.State) (events : list Event) :
  slots (run (confirmed (removeUsers st)) events)
  = (fun i => catchErr <$> firstOutcome i events)
      <$> seq 0 (length (UserView.getSelectedUsers st)).
Proof.
  pose proof (invariant_reachable st events) as [_ Hlen _ _ _].
  apply list_eq. intros i. rewrite list_lookup_fmap.
  destruct (decide (i < length (UserView.getSelectedUsers st))) as [Hi|Hi].
  - rewrite slots_by_first_outcome_from_confirmed by done.
    by rewrite lookup_seq_lt.
  - rewrite lookup_ge_None_2 by lia.
    by rewrite lookup_seq_ge by lia.
Qed.

(** The results do not depend on the order in which the requests settle:
    two runs in which each request settles with the same outcome fill the
    slots alike and lead to the same summary text. *)
Theorem results_independent_of_order (st : UserView.State)
    (events1 events2 : list Event) :
  (forall i, i < length (UserView.getSelectedUsers st) ->
             firstOutcome i events1 = firstOutcome i events2) ->
  slots (run (confirmed (removeUsers st)) events1)
  = slots (run (confirmed (removeUsers st)) events2)
  /\ summary (UserView.getSelectedUsers st)
       (results (slots (run (confirmed (removeUsers st)) events1)))
     = summary (UserView.getSelectedUsers st)
         (results (slots (run (confirmed (removeUsers st)) events2))).
Proof.
  intros Hsame.
  assert (Heq : slots (run (confirmed (removeUsers st)) events1)
                = slots (run (confirmed (removeUsers st)) events2)).
  { pose proof (invariant_reachable st events1) as [_ Hlen1 _ _ _].
    pose proof (invariant_reachable st events2) as [_ Hlen2 _ _ _].
    apply list_eq. intros i.
    destruct (decide (i < length (UserView.getSelectedUsers st))) as [Hi|Hi].
    - by rewrite !slots_by_first_outcome_from_confirmed, Hsame.
    - rewrite !lookup_ge_None_2; [done | lia | lia]. }
  split; [exact Heq | by rewrite Heq].
Qed.

End batch_more.

Section batch_trace.
Import BatchRemove.

(** What has been done once the confirmation is accepted. *)
Lemma effects_confirmed_requests (st : UserView.State) :
  exists tail,
    effects (confirmed (removeUsers st))
    = (effects (removeUsers st)
       ++ ShowLoading "Processing..."
          :: map (fun user => RemoveUserRequest (User.username user))
                 (UserView.getSelectedUsers st)) ++ tail
    /\ tail = afterRequests (confirmed (removeUsers st)).
Proof.
  unfold confirmed, promiseAllCheck, afterRequests. simpl.
  destruct (allFulfilled _); simpl; eexists; split; try done.
  by rewrite app_nil_r.
Qed.

Lemma effects_step (sel : list User.t) (base : list Effect) (b : Batch)
    (e : Event) :
  invariant sel b ->
  effects b = base ++ afterRequests b ->
  effects (step b e) = base ++ afterRequests (step b e).
Proof.
  intros Hinv Heff.
  pose proof Hinv as [Hsel Hlen Hslots Hreq Hphase].
  unfold phaseInvariant in Hphase.
  destruct e as [answer|i outcome| |]; simpl.
  - destruct answer, (phase b); done.
  - unfold settle. destruct (slots b !! i) as [[s|]|] eqn:Hi; try done.
    assert (Hcatch : exists value, catchErr outcome = Fulfilled value).
    { destruct outcome; simpl; eauto. }
    destruct Hcatch as [value ->].
    destruct (phase b) eqn:Hph; try done.
    unfold promiseAllCheck. simpl.
    unfold afterRequests in Heff. rewrite Hph, app_nil_r in Heff.
    destruct (allFulfilled (<[i:=_]> (slots b))); unfold afterRequests; simpl.
    + by rewrite Heff.
    + by rewrite Heff, app_nil_r.
  - destruct (phase b) eqn:Hph; try done.
    unfold afterRequests in *. rewrite Hph in Heff. simpl.
    rewrite Heff, <- app_assoc. done.
  - destruct (phase b) eqn:Hph; try done.
    unfold afterRequests in *. rewrite Hph in Heff. simpl.
    destruct Hphase as (_ & Hm & _).
    rewrite Heff, <- app_assoc, Hsel, <- Hm. done.
Qed.

Lemma effects_after_requests (st : UserView.State) (events : list Event) :
  effects (run (confirmed (removeUsers st)) events)
  = (effects (removeUsers st)
     ++ ShowLoading "Processing..."
        :: map (fun user => RemoveUserRequest (User.username user))
               (UserView.getSelectedUsers st))
    ++ afterRequests (run (confirmed (removeUsers st)) events).
Proof.
  set (base := effects (removeUsers st) ++ _).
  assert (Hgen : forall evs b,
    invariant (UserView.getSelectedUsers st) b ->
    effects b = base ++ afterRequests b ->
    effects (run b evs) = base ++ afterRequests (run b evs)).
  { induction evs as [|e evs IH]; intros b Hinv Heff; simpl; [done|].
    apply IH; [by apply invariant_step | by eapply effects_step]. }
  apply Hgen; [apply invariant_confirmed|].
  destruct (effects_confirmed_requests st) as (tail & Htail & ->).
  exact Htail.
Qed.

Lemma hideLoading_iff_summarised (st : UserView.State) (events : list Event) :
  HideLoading ∈ effects (run (confirmed (removeUsers st)) events)
  <-> summarised (run (confirmed (removeUsers st)) events).
Proof.
  rewrite effects_after_requests, elem_of_app.
  assert (Hbase :
    ~ HideLoading ∈
        effects (removeUsers st)
        ++ ShowLoading "Processing..."
           :: map (fun user => RemoveUserRequest (User.username user))
                  (UserView.getSelectedUsers st)).
  { simpl. rewrite !elem_of_cons, list_elem_of_fmap.
    intros [?|[?|(u & ? & _)]]; done. }
  unfold afterRequests, summarised.
  destruct (phase _); simpl; split; try done;
    try (intros [?|Hin]; [done | by apply elem_of_nil in Hin]);
    intros _; right; apply elem_of_cons; by left.
Qed.

(** The effects of a confirmed removal come in one fixed order: the
    question, the loading mask, one request per selected user; then, only
    once the summary exists, the mask is hidden and the 100 ms timer set;
    then the summary is shown; then, on its dismissal, the list is
    refreshed.  In particular the mask stays up while a request is pending. *)
Theorem effects_in_order (st : UserView.State) (events : list Event) :
  effects (run (confirmed (removeUsers st)) events)
  = (effects (removeUsers st)
     ++ ShowLoading "Processing..."
        :: map (fun user => RemoveUserRequest (User.username user))
               (UserView.getSelectedUsers st))
    ++ afterRequests (run (confirmed (removeUsers st)) events)
  /\ (HideLoading ∈ effects (run (confirmed (removeUsers st)) events)
      <-> summarised (run (confirmed (removeUsers st)) events)).
Proof.
  split; [apply effects_after_requests | apply hideLoading_iff_summarised].
Qed.

Lemma summarised_iff_allFulfilled (sel : list User.t) (b : Batch) :
  invariant sel b -> (summarised b <-> allFulfilled (slots b) = true).
Proof.
  intros [_ _ _ _ Hphase]. unfold phaseInvariant in Hphase. unfold summarised.
  destruct (phase b); try done;
    try (split; [intros _; apply Hphase | done]).
  split; [done|]. destruct Hphase as [Hall _]. congruence.
Qed.

(** The summary is produced exactly when every request has settled,
    in whatever order.  There is no timeout: as long as one request has not
    settled, the component stays in the removing phase, with the loading mask
    up and no summary. *)
Theorem summary_iff_all_settled (st : UserView.State) (events : list Event) :
  (summarised (run (confirmed (removeUsers st)) events)
   <-> forall i, i < length (UserView.getSelectedUsers st) ->
                 is_Some (firstOutcome i events))
  /\ ((exists i, i < length (UserView.getSelectedUsers st)
                 /\ firstOutcome i events = None) ->
      phase (run (confirmed (removeUsers st)) events) = Removing
      /\ ~ HideLoading ∈ effects (run (confirmed (removeUsers st)) events)).
Proof.
  pose proof (invariant_reachable st events) as Hinv.
  pose proof Hinv as [_ Hlen _ _ Hphase].
  assert (Hiff : summarised (run (confirmed (removeUsers st)) events)
                 <-> forall i, i < length (UserView.getSelectedUsers st) ->
                               is_Some (firstOutcome i events)).
  { rewrite (summarised_iff_allFulfilled _ _ Hinv), allFulfilled_lookup, Hlen.
    split; intros Hall i Hi; specialize (Hall i Hi).
    - destruct Hall as [value Hv].
      rewrite slots_by_first_outcome_from_confirmed in Hv by done.
      destruct (firstOutcome i events); [by eexists | done].
    - destruct Hall as [outcome Ho].
      rewrite slots_by_first_outcome_from_confirmed, Ho by done.
      exists (collected outcome). simpl. by rewrite catchErr_collected. }
  split; [exact Hiff|].
  intros (i & Hi & Hnone).
  assert (Hnot : ~ summarised (run (confirmed (removeUsers st)) events)).
  { intros Hsum. destruct (proj1 Hiff Hsum i Hi) as [o Ho]. congruence. }
  split.
  - unfold phaseInvariant in Hphase. unfold summarised in Hnot.
    by destruct (phase (run (confirmed (removeUsers st)) events)).
  - by rewrite hideLoading_iff_summarised.
Qed.

(** Removing with nothing selected still asks ("these users"); once
    confirmed it issues no request, and [Promise.all] of no promise fulfils
    at once: the summary is "Remove users successfully.". *)
Theorem empty_selection_reports_success (st : UserView.State) :
  UserView.getSelectedUsers st = [] ->
  removeUsers st
  = mkBatch [] Confirming []
      [ShowMessageBoxWithConfirm "Are you sure to remove these users?"]
  /\ confirmed (removeUsers st)
     = mkBatch [] (TimerPending "Remove users successfully.") []
         [ShowMessageBoxWithConfirm "Are you sure to remove these users?";
          ShowLoading "Processing..."; HideLoading; SetTimeout 100].
Proof.
  intros Hnone. unfold confirmed, removeUsers. rewrite Hnone. done.
Qed.

(** The question and the summary are never the empty text, so the message
    boxes that carry them are rendered and can be dismissed. *)
Theorem removal_boxes_are_rendered {V : Type} (st : UserView.State)
    (rs : list JsValue) (mb : MessageBox.State V) :
  (forall text, ShowMessageBoxWithConfirm text ∈ effects (removeUsers st) ->
     MessageBox.rendered (MessageBox.step mb (MessageBox.ShowWithConfirm text))
     = true)
  /\ MessageBox.rendered
       (MessageBox.step mb
          (MessageBox.Show (summary (UserView.getSelectedUsers st) rs)))
     = true.
Proof.
  split.
  - intros text Hin. unfold removeUsers in Hin. simpl in Hin.
    apply list_elem_of_singleton in Hin. injection Hin as ->. done.
  - rewrite summary_text. done.
Qed.

End batch_trace.

(** ** Directory group lookup: outcomes, fuel and requests *)

Section lookup_more.
Import GroupLookup.

Context {World Err : Type}.
Variable axiosGet : Request -> World -> (Err + ResponseData) * World.

Lemma fetchLoop_log (config : Config) (fuel : nat) :
  forall u responseData log w,
    exists urls,
      snd (fst (fetchLoop World Err axiosGet fuel config u responseData log w))
      = log ++ map AxiosGet (map (requestFor config) urls)
      /\ length urls <= fuel
      /\ (fst (fst (fetchLoop World Err axiosGet fuel config u responseData log w))
          = OutOfFuel -> length urls = fuel)
      /\ (0 < fuel -> head urls = Some u).
Proof.
  induction fuel as [|fuel IH]; intros u rd log w; simpl.
  - exists []. simpl. rewrite app_nil_r. repeat split; [lia|lia].
  - destruct (axiosGet (requestFor config u) w) as [[error|data] w1] eqn:Hget.
    + exists [u]. simpl. repeat split; [lia | done].
    + destruct (nextLink data) as [next|] eqn:Hnext.
      * destruct (IH next (rd ++ [value data])
                    (log ++ [AxiosGet (requestFor config u)]) w1)
          as (urls & Hlog & Hlen & Hout & _).
        exists (u :: urls). simpl. rewrite Hlog, <- app_assoc.
        repeat split; [lia | intros Ho; f_equal; by apply Hout].
      * exists [u]. simpl. repeat split; [lia | done].
Qed.

(** The loop has no bound of its own: against a directory whose every
    answer carries a next link, the lookup never returns nor throws; with
    [fuel] iterations allowed it issues [fuel] requests and is still going. *)
Theorem endless_links_never_return (username : string) (config : Config)
    (w : World) (fuel : nat) :
  (forall request w0, exists data next w1,
      axiosGet request w0 = (inr data, w1) /\ nextLink data = Some next) ->
  fst (fst (getUserGroupList World Err axiosGet fuel username config w))
    = OutOfFuel
  /\ length (requested
               (snd (fst (getUserGroupList World Err axiosGet fuel username
                            config w)))) = fuel.
Proof.
  intros Hendless.
  assert (Hloop : forall n u rd log w0,
    fst (fst (fetchLoop World Err axiosGet n config u rd log w0)) = OutOfFuel).
  { induction n as [|n IH]; intros u rd log w0; simpl; [done|].
    destruct (Hendless (requestFor config u) w0) as (data & next & w1 & -> & ->).
    apply IH. }
  unfold getUserGroupList.
  destruct (fetchLoop_log config fuel (msGraphAPI config) [] [] w)
    as (urls & Hlog & _ & Hout & _).
  specialize (Hloop fuel (msGraphAPI config) [] [] w).
  destruct (fetchLoop World Err axiosGet fuel config (msGraphAPI config) [] [] w)
    as [[o log] w'].
  simpl in *. subst o. simpl. split; [done|].
  rewrite Hlog. simpl. rewrite requested_axiosGet, length_map. by apply Hout.
Qed.

(** With the configuration built by [initConfig], every request of a
    lookup, however it ends, asks for JSON and carries the bearer token; the
    first one goes to the memberOf URL under the given base; and there are
    never more requests than iterations allowed. *)
Theorem requests_carry_bearer_token (msGraphUrl accessToken username : string)
    (w : World) (fuel : nat) :
  let log :=
    snd (fst (getUserGroupList World Err axiosGet fuel username
                (initConfig msGraphUrl accessToken) w)) in
  Forall (fun request =>
            acceptHeader request = "application/json"
            /\ authorizationHeader request = "Bearer " +:+ accessToken)
         (requested log)
  /\ length (requested log) <= fuel
  /\ (0 < fuel ->
      head (requested log)
      = Some (mkRequest (msGraphUrl +:+ "v1.0/me/memberOf") "application/json"
                        ("Bearer " +:+ accessToken))).
Proof.
  intros log. subst log. set (config := initConfig msGraphUrl accessToken).
  assert (Hlog : exists urls blocks,
    snd (fst (getUserGroupList World Err axiosGet fuel username config w))
    = map AxiosGet (map (requestFor config) urls) ++ map ConsoleLog blocks
    /\ length urls <= fuel
    /\ (0 < fuel -> head urls = Some (msGraphAPI config))).
  { unfold getUserGroupList.
    destruct (fetchLoop_log config fuel (msGraphAPI config) [] [] w)
      as (urls & Hlog & Hlen & _ & Hhead).
    destruct (fetchLoop World Err axiosGet fuel config (msGraphAPI config) [] [] w)
      as [[[rd|error|] log] w']; simpl in Hlog; subst log.
    - destruct (collectGroups rd) as [groupList logged] eqn:Hcollect.
      exists urls, rd. simpl. split; [|done].
      f_equal. unfold collectGroups in Hcollect.
      assert (Hlogged : forall blocks gl lg,
        snd (foldl (fun '(groupList, log) dataBlock =>
                      (pushNames groupList dataBlock, log ++ [ConsoleLog dataBlock]))
                   (gl, lg) blocks) = lg ++ map ConsoleLog blocks).
      { induction blocks as [|blk blocks IH]; intros gl lg; simpl.
        - by rewrite app_nil_r.
        - rewrite IH, <- app_assoc. done. }
      specialize (Hlogged rd [] []). rewrite Hcollect in Hlogged. exact Hlogged.
    - exists urls, []. simpl. by rewrite app_nil_r.
    - exists urls, []. simpl. by rewrite app_nil_r. }
  destruct Hlog as (urls & blocks & -> & Hlen & Hhead).
  rewrite requested_gets. split; [|split].
  - apply Forall_forall. intros request Hin.
    apply list_elem_of_fmap in Hin as (u & -> & _). done.
  - by rewrite length_map.
  - intros Hfuel. specialize (Hhead Hfuel).
    destruct urls as [|u urls]; simplify_eq/=. done.
Qed.

End lookup_more.

(** ** Runs of the view *)

Section view_runs.
Import UserView.

(** Only the user's paging changes the page size, and nothing else moves
    the view to a page other than the first: through any events that are not
    [setPagination] calls of the paginator, [itemsPerPage] is kept, and the
    current page is either kept or reset to 0.  So after a change of the
    filtered list the view stays on page 0 until the user pages. *)
Theorem page_kept_or_reset (st : State) (events : list Event) :
  noPaging events = true ->
  Pagination.itemsPerPage (pagination (run st events))
  = Pagination.itemsPerPage (pagination st)
  /\ (Pagination.currentPage (pagination (run st events)) = 0
      \/ pagination (run st events) = pagination st)
  /\ (Pagination.currentPage (pagination st) = 0 ->
      Pagination.currentPage (pagination (run st events)) = 0).
Proof.
  revert st. induction events as [|e events IH]; intros st Hno; simpl.
  - auto.
  - simpl in Hno. apply andb_true_iff in Hno as [He Hno].
    destruct (step_keeps_page st e He) as [Hsize Hpage].
    destruct (IH (step st e) Hno) as (Hsize' & Hpage' & Hzero').
    split; [congruence|]. split.
    + destruct Hpage' as [Hz|Hsame]; [by left|].
      rewrite Hsame. exact Hpage.
    + intros Hzero. apply Hzero'.
      destruct Hpage as [Hz|Hsame]; [done | by rewrite Hsame].
Qed.



End view_runs.

(** *** The further properties at the sample data *)

Section more_witnesses.
Import Sample.

Lemma show_then_dismiss_witness :
  MessageBox.promises
    (MessageBox.run (@MessageBox.initial bool)
       [MessageBox.ShowWithConfirm "Are you sure to remove the user?";
        MessageBox.Dismissed true]) !! 0
  = Some (Some true).
Proof.
  pose proof (show_then_dismiss
                (MessageBox.ShowWithConfirm "Are you sure to remove the user?")
                true (@MessageBox.initial bool) eq_refl)
    as Hround.
  simpl in Hround. apply Hround. discriminate.
Defined.

Lemma superseded_promise_stays_pending_witness :
  MessageBox.promises
    (MessageBox.run (@MessageBox.initial bool)
       [MessageBox.Show "Error: Unauthorized";
        MessageBox.Show "Remove user successfully.";
        MessageBox.Dismissed false; MessageBox.Dismissed true]) !! 0
  = Some None.
Proof.
  exact (superseded_promise_stays_pending
           (MessageBox.Show "Error: Unauthorized")
           (MessageBox.Show "Remove user successfully.")
           [MessageBox.Dismissed false; MessageBox.Dismissed true]
           (@MessageBox.initial bool) eq_refl eq_refl).
Defined.

Lemma empty_text_promise_stays_pending_witness :
  MessageBox.promises
    (MessageBox.run (@MessageBox.initial bool)
       [MessageBox.Show ""; MessageBox.Dismissed true]) !! 0
  = Some None.
Proof.
  exact (proj2 (empty_text_promise_stays_pending (MessageBox.Show "")
                  [MessageBox.Dismissed true] (@MessageBox.initial bool)
                  eq_refl eq_refl)).
Defined.

Lemma nothing_happens_unless_confirmed_witness :
  BatchRemove.requests
    (BatchRemove.effects
       (BatchRemove.run (BatchRemove.removeUsers threeTickedState)
          [BatchRemove.Settle 0 (BatchRemove.Fulfilled removed);
           BatchRemove.Confirm false; BatchRemove.Dismiss])) = []
  /\ BatchRemove.phase
       (BatchRemove.run (BatchRemove.removeUsers threeTickedState)
          [BatchRemove.Settle 0 (BatchRemove.Fulfilled removed);
           BatchRemove.Confirm false; BatchRemove.Dismiss])
     = BatchRemove.Cancelled.
Proof.
  pose proof (nothing_happens_unless_confirmed threeTickedState
                [BatchRemove.Settle 0 (BatchRemove.Fulfilled removed);
                 BatchRemove.Confirm false; BatchRemove.Dismiss] eq_refl)
    as (_ & Hreq & _ & _ & Hcancel).
  split; [exact Hreq|]. apply Hcancel.
  apply elem_of_cons. right. apply elem_of_cons. by left.
Defined.

Lemma results_independent_of_order_witness :
  BatchRemove.slots
    (BatchRemove.run (BatchRemove.confirmed (BatchRemove.removeUsers threeTickedState))
       [BatchRemove.Settle 2 (BatchRemove.Fulfilled removed);
        BatchRemove.Settle 1 (BatchRemove.Rejected notFound);
        BatchRemove.Settle 0 (BatchRemove.Rejected timeoutText)])
  = BatchRemove.slots
      (BatchRemove.run (BatchRemove.confirmed (BatchRemove.removeUsers threeTickedState))
         [BatchRemove.Settle 0 (BatchRemove.Rejected timeoutText);
          BatchRemove.TimerFired;
          BatchRemove.Settle 1 (BatchRemove.Rejected notFound);
          BatchRemove.Settle 2 (BatchRemove.Fulfilled removed)]).
Proof.
  apply (results_independent_of_order threeTickedState).
  intros [|[|[|i]]] Hi; reflexivity.
Defined.

Lemma summary_iff_all_settled_witness :
  BatchRemove.phase
    (BatchRemove.run (BatchRemove.confirmed (BatchRemove.removeUsers threeTickedState))
       [BatchRemove.Settle 0 (BatchRemove.Fulfilled removed);
        BatchRemove.Settle 2 (BatchRemove.Rejected notFound)])
  = BatchRemove.Removing.
Proof.
  apply (summary_iff_all_settled threeTickedState
           [BatchRemove.Settle 0 (BatchRemove.Fulfilled removed);
            BatchRemove.Settle 2 (BatchRemove.Rejected notFound)]).
  exists 1. split; [simpl; lia | reflexivity].
Defined.

Lemma empty_selection_reports_success_witness :
  BatchRemove.phase
    (BatchRemove.confirmed
       (BatchRemove.removeUsers
          (UserView.setAllSelected true (UserView.init nonAdmins twoPerPage))))
  = BatchRemove.TimerPending "Remove users successfully.".
Proof.
  pose proof (empty_selection_reports_success
                (UserView.setAllSelected true (UserView.init nonAdmins twoPerPage))
                eq_refl) as [_ Hconfirmed].
  by rewrite Hconfirmed.
Defined.

Lemma removal_boxes_are_rendered_witness :
  MessageBox.rendered
    (MessageBox.step (@MessageBox.initial bool)
       (MessageBox.ShowWithConfirm "Are you sure to remove the user?"))
  = true.
Proof.
  apply (proj1 (removal_boxes_are_rendered oneTickedState [] MessageBox.initial)).
  apply list_elem_of_singleton. reflexivity.
Defined.

Lemma endless_links_never_return_witness :
  fst (fst (GroupLookup.getUserGroupList nat string endlessDirectory 9 "alice"
              graphConfig 0))
  = GroupLookup.OutOfFuel.
Proof.
  apply (endless_links_never_return endlessDirectory "alice" graphConfig 0 9).
  intros request w0.
  exists (GroupLookup.mkData [] (Some (GroupLookup.url request))),
         (GroupLookup.url request), (S w0).
  split; reflexivity.
Defined.

Lemma requests_carry_bearer_token_witness :
  head (GroupLookup.requested
          (snd (fst (GroupLookup.getUserGroupList nat string directory 5 "alice"
                       (GroupLookup.initConfig "https://graph.example/" "secret")
                       0))))
  = Some (GroupLookup.mkRequest "https://graph.example/v1.0/me/memberOf"
            "application/json" "Bearer secret").
Proof.
  pose proof (requests_carry_bearer_token directory "https://graph.example/"
                "secret" "alice" 0 5) as (_ & _ & Hhead).
  apply Hhead. lia.
Defined.

Lemma page_kept_or_reset_witness :
  Pagination.itemsPerPage
    (UserView.pagination
       (UserView.run (UserView.setPagination (Pagination.make 2 1) selectAllState)
          [UserView.FilterSet Filter.empty; UserView.ApplyFilterFired 7;
           UserView.AllSelectedSet false])) = 2.
Proof.
  pose proof (page_kept_or_reset
                (UserView.setPagination (Pagination.make 2 1) selectAllState)
                [UserView.FilterSet Filter.empty; UserView.ApplyFilterFired 7;
                 UserView.AllSelectedSet false] eq_refl) as [Hsize _].
  exact Hsize.
Defined.


End more_witnesses.
